(** * Trust-settings matching and domain enumeration (pal_trust.cpp)

    A shallow embedding of
    [src/Native/Unix/System.Security.Cryptography.Native.Apple/pal_trust.cpp]:
    the evaluator [CheckTrustMatch], the domain enumerator [EnumerateTrust]
    and the four exported operations, over an explicit memory (the caller's
    two output cells and the live mutable arrays) and an injected
    trust-settings store. *)

From stdpp Require Import gmap strings list fin_maps.
From Stdlib Require Import ZArith Lia.

Local Open Scope Z_scope.

(** ** Platform constants

    The values are the ones of the platform headers (MacTypes.h,
    MacErrors.h, SecBase.h, SecTrustSettings.h). *)

Definition OSStatus := Z.

Definition noErr : OSStatus := 0.
Definition errSecAllocate : OSStatus := -108.
Definition errSecNoTrustSettings : OSStatus := -25263.

(** [SecTrustSettingsDomain]: the code only hands a domain to the store. *)
Inductive SecTrustSettingsDomain :=
| kSecTrustSettingsDomainUser
| kSecTrustSettingsDomainAdmin
| kSecTrustSettingsDomainSystem.

(** [SecTrustSettingsResult] is an unsigned 32-bit enumeration; it is
    compared with a number decoded from a settings record, so it is kept
    numeric. *)
Definition SecTrustSettingsResult := Z.

Definition kSecTrustSettingsResultInvalid : SecTrustSettingsResult := 0.
Definition kSecTrustSettingsResultTrustRoot : SecTrustSettingsResult := 1.
Definition kSecTrustSettingsResultTrustAsRoot : SecTrustSettingsResult := 2.
Definition kSecTrustSettingsResultDeny : SecTrustSettingsResult := 3.
Definition kSecTrustSettingsResultUnspecified : SecTrustSettingsResult := 4.

(** The reserved dictionary key that holds the asserted outcome. *)
Definition kSecTrustSettingsResult : string := "kSecTrustSettingsResult".

(** ** CoreFoundation objects *)

(** A certificate is an opaque identity. *)
Definition SecCertificateRef := positive.

(** What a [CFTypeRef] can point at.  Dictionaries are keyed by strings
    (the trust-settings keys are CFString constants).  A [CFNumber] whose
    value is an integer carries it; [CFNumberInexact] is a number with no
    integer value (a fractional floating-point number). *)
#[warnings="-register-all"] Inductive CFType :=
| CFString (s : string)
| CFBoolean (b : bool)
| CFNumber (value : Z)
| CFNumberInexact
| CFArray (items : list CFType)
| CFDictionary (dict : gmap string CFType)
| SecCertificate (cert : SecCertificateRef).

Inductive CFTypeID :=
| CFStringTypeID
| CFBooleanTypeID
| CFNumberTypeID
| CFArrayTypeID
| CFDictionaryTypeID
| SecCertificateTypeID.

Definition CFGetTypeID (obj : CFType) : CFTypeID :=
  match obj with
  | CFString _ => CFStringTypeID
  | CFBoolean _ => CFBooleanTypeID
  | CFNumber _ => CFNumberTypeID
  | CFNumberInexact => CFNumberTypeID
  | CFArray _ => CFArrayTypeID
  | CFDictionary _ => CFDictionaryTypeID
  | SecCertificate _ => SecCertificateTypeID
  end.

#[global] Instance CFTypeID_eq_dec : EqDecision CFTypeID.
Proof. solve_decision. Defined.

#[global] Instance SecTrustSettingsDomain_eq_dec : EqDecision SecTrustSettingsDomain.
Proof. solve_decision. Defined.

(** [CFNumberGetValue(n, kCFNumberSInt32Type, &out)]: [Some v] when the
    call returns true (the value fits a signed 32-bit integer, [v] is what
    is stored), [None] when the conversion is lossy. *)
Definition CFNumberGetValue_SInt32 (n : CFType) : option Z :=
  match n with
  | CFNumber value =>
      if (- 2 ^ 31 <=? value) && (value <? 2 ^ 31) then Some value else None
  | _ => None
  end.

(** Storing a signed 32-bit value into the unsigned 32-bit
    [SecTrustSettingsResult trustValue]. *)
Definition as_uint32 (v : Z) : Z := v mod 2 ^ 32.

(** ** The evaluator's scan (lines 32-68) *)

(** One iteration of the loop body, lines 34-67: [None] is every path that
    ends in [continue] or falls off the end of the body, [Some trustValue]
    is the path that reaches lines 64-65. *)
Definition CheckTrustMatch_record (obj : CFType) : option Z :=
  match obj with
  | CFDictionary dict =>
      if 1 <? Z.of_nat (size dict) then None
      else
        match dict !! kSecTrustSettingsResult with
        | Some val =>
            if decide (CFGetTypeID val = CFNumberTypeID) then
              match CFNumberGetValue_SInt32 val with
              | Some v => Some (as_uint32 v)
              | None => None
              end
            else None
        | None => None
        end
  | _ => None
  end.

(** The [for] loop over the settings array; the result is [isMatch], which
    starts as false (line 14). *)
Fixpoint CheckTrustMatch_scan (result : SecTrustSettingsResult)
    (settings : list CFType) : bool :=
  match settings with
  | [] => false
  | obj :: rest =>
      match CheckTrustMatch_record obj with
      | Some trustValue => trustValue =? result
      | None => CheckTrustMatch_scan result rest
      end
  end.

(** ** The injected platform: the trust-settings store and the allocator

    The store is a snapshot: a query answers the same way for the whole of
    one exported call.  A store answer is the returned status together
    with what the call left in its out-parameter ([None] is [nullptr]).
    [CFArrayCreateMutable_succeeds k] tells whether the [k]-th allocation
    of a mutable array (counted from 0) yields an array. *)
Record Platform := {
  SecTrustSettingsCopyCertificates :
    SecTrustSettingsDomain -> OSStatus * option (list CFType);
  SecTrustSettingsCopyTrustSettings :
    SecCertificateRef -> SecTrustSettingsDomain -> OSStatus * option (list CFType);
  CFArrayCreateMutable_succeeds : nat -> bool
}.

(** A store access, as recorded in the memory's log. *)
Inductive StoreCall :=
| CopyCertificates (domain : SecTrustSettingsDomain)
| CopyTrustSettings (cert : SecCertificateRef) (domain : SecTrustSettingsDomain).

(** ** Memory *)

Definition CFMutableArrayRef := positive.

(** The caller's two output cells, the live mutable arrays (an array
    created here has one owner, so [CFRelease] frees it), the number of
    allocations made and the store accesses made, oldest first.  The
    arrays the store hands back are immutable copies: they are values
    here, and releasing them (lines 72-73 and 145-148) changes nothing
    that is modelled. *)
Record Memory := {
  certsOut : option CFMutableArrayRef;
  osStatusOut : Z;
  arrays : gmap positive (list CFType);
  allocations : nat;
  storeCalls : list StoreCall
}.

Definition set_certsOut (v : option CFMutableArrayRef) (m : Memory) : Memory :=
  {| certsOut := v; osStatusOut := osStatusOut m; arrays := arrays m;
     allocations := allocations m; storeCalls := storeCalls m |}.

Definition set_osStatusOut (v : Z) (m : Memory) : Memory :=
  {| certsOut := certsOut m; osStatusOut := v; arrays := arrays m;
     allocations := allocations m; storeCalls := storeCalls m |}.

Definition set_arrays (v : gmap positive (list CFType)) (m : Memory) : Memory :=
  {| certsOut := certsOut m; osStatusOut := osStatusOut m; arrays := v;
     allocations := allocations m; storeCalls := storeCalls m |}.

Definition count_allocation (m : Memory) : Memory :=
  {| certsOut := certsOut m; osStatusOut := osStatusOut m; arrays := arrays m;
     allocations := S (allocations m); storeCalls := storeCalls m |}.

Definition log_call (c : StoreCall) (m : Memory) : Memory :=
  {| certsOut := certsOut m; osStatusOut := osStatusOut m; arrays := arrays m;
     allocations := allocations m; storeCalls := storeCalls m ++ [c] |}.

(** An output pointer handed to the code: null, or the address of the
    caller's cell of that kind. *)
Inductive ptr := nullptr | caller_cell.

Definition is_null (p : ptr) : bool :=
  match p with nullptr => true | caller_cell => false end.

(** ** Computations: memory passing, with undefined behaviour explicit *)

Inductive outcome (A : Type) :=
| Done (a : A) (m : Memory)
| Crash.
Arguments Done {A} a m.
Arguments Crash {A}.

Definition M (A : Type) : Type := Memory -> outcome A.

#[global] Instance M_ret : MRet M := fun A a m => Done a m.
#[global] Instance M_bind : MBind M := fun A B f c m =>
  match c m with
  | Done a m' => f a m'
  | Crash => Crash
  end.

Definition when (b : bool) (c : M unit) : M unit :=
  if b then c else mret tt.

(** Dereferencing the two output pointers. *)
Definition load_status (p : ptr) : M Z := fun m =>
  match p with nullptr => Crash | caller_cell => Done (osStatusOut m) m end.

Definition store_status (p : ptr) (v : Z) : M unit := fun m =>
  match p with nullptr => Crash | caller_cell => Done tt (set_osStatusOut v m) end.

Definition load_certs (p : ptr) : M (option CFMutableArrayRef) := fun m =>
  match p with nullptr => Crash | caller_cell => Done (certsOut m) m end.

Definition store_certs (p : ptr) (v : option CFMutableArrayRef) : M unit := fun m =>
  match p with nullptr => Crash | caller_cell => Done tt (set_certsOut v m) end.

(** Mutable arrays.  Using a reference that is not live is undefined. *)
Definition CFArrayGetCount (a : CFMutableArrayRef) : M Z := fun m =>
  match arrays m !! a with
  | Some items => Done (Z.of_nat (length items)) m
  | None => Crash
  end.

Definition CFArrayAppendValue (a : CFMutableArrayRef) (v : CFType) : M unit := fun m =>
  match arrays m !! a with
  | Some items => Done tt (set_arrays (<[a := items ++ [v]]> (arrays m)) m)
  | None => Crash
  end.

Definition CFRelease (a : CFMutableArrayRef) : M unit := fun m =>
  match arrays m !! a with
  | Some _ => Done tt (set_arrays (delete a (arrays m)) m)
  | None => Crash
  end.

Section Code.

Variable P : Platform.

Definition CFArrayCreateMutable : M (option CFMutableArrayRef) := fun m =>
  if CFArrayCreateMutable_succeeds P (allocations m) then
    let a := fresh (dom (arrays m)) in
    Done (Some a) (count_allocation (set_arrays (<[a := []]> (arrays m)) m))
  else Done None (count_allocation m).

Definition call_CopyCertificates (domain : SecTrustSettingsDomain)
  : M (OSStatus * option (list CFType)) := fun m =>
  Done (SecTrustSettingsCopyCertificates P domain) (log_call (CopyCertificates domain) m).

Definition call_CopyTrustSettings (cert : SecCertificateRef)
    (domain : SecTrustSettingsDomain)
  : M (OSStatus * option (list CFType)) := fun m =>
  Done (SecTrustSettingsCopyTrustSettings P cert domain)
       (log_call (CopyTrustSettings cert domain) m).

(** ** [CheckTrustMatch], lines 7-76

    On a non-empty array the loop of lines 32-68 is [CheckTrustMatch_scan]. *)
Definition CheckTrustMatch (cert : SecCertificateRef)
    (domain : SecTrustSettingsDomain) (result : SecTrustSettingsResult)
    (pOSStatus : ptr) : M bool :=
  '(status, settings) ← call_CopyTrustSettings cert domain;
  store_status pOSStatus status;;
  st ← load_status pOSStatus;
  match st =? noErr, settings with
  | true, Some items =>
      let count := Z.of_nat (length items) in
      if count =? 0 then
        store_status pOSStatus noErr;;
        mret (result =? kSecTrustSettingsResultTrustRoot)
      else mret (CheckTrustMatch_scan result items)
  | _, _ => mret false
  end.

(** ** [EnumerateTrust], lines 78-161 *)

(** The [for] loop of lines 115-136 over the objects the store listed;
    matching on [SecCertificate] is the type test of line 119 followed by
    the cast of line 124, and leaving the recursion early is the [break]
    of line 129. *)
Fixpoint EnumerateTrust_loop (domain : SecTrustSettingsDomain)
    (result : SecTrustSettingsResult) (outArray : CFMutableArrayRef)
    (pOSStatus : ptr) (certsWithTrusts : list CFType) : M unit :=
  match certsWithTrusts with
  | [] => mret tt
  | obj :: rest =>
      match obj with
      | SecCertificate cert =>
          isMatch ← CheckTrustMatch cert domain result pOSStatus;
          st ← load_status pOSStatus;
          if negb (st =? noErr) then mret tt
          else
            when isMatch (CFArrayAppendValue outArray obj);;
            EnumerateTrust_loop domain result outArray pOSStatus rest
      | _ => EnumerateTrust_loop domain result outArray pOSStatus rest
      end
  end.

(** Line 112 calls [CFArrayGetCount] on the listing with no null test: a
    listing that reports success without an array has no defined
    behaviour.  Line 154 reads the count only when [ret] is not 0. *)
Definition EnumerateTrust (domain : SecTrustSettingsDomain)
    (result : SecTrustSettingsResult) (pCertsRef pOSStatus : ptr) : M Z :=
  when (negb (is_null pOSStatus)) (store_status pOSStatus noErr);;
  if is_null pCertsRef || is_null pOSStatus then mret (-1)
  else
    given ← load_certs pCertsRef;
    outArray ←
      match given with
      | Some a => mret (Some a)
      | None =>
          new_array ← CFArrayCreateMutable;
          store_certs pCertsRef new_array;;
          mret new_array
      end;
    match outArray with
    | None =>
        store_status pOSStatus errSecAllocate;;
        mret 0
    | Some outArray =>
        '(status, certsWithTrusts) ← call_CopyCertificates domain;
        store_status pOSStatus status;;
        st ← load_status pOSStatus;
        (if st =? noErr then
           match certsWithTrusts with
           | Some items => EnumerateTrust_loop domain result outArray pOSStatus items
           | None => fun _ => Crash
           end
         else when (st =? errSecNoTrustSettings) (store_status pOSStatus noErr));;
        st ← load_status pOSStatus;
        let ret := if st =? noErr then 1 else 0 in
        release ←
          (if ret =? 0 then mret true
           else count ← CFArrayGetCount outArray; mret (count =? 0));
        when release (CFRelease outArray;; store_certs pCertsRef None);;
        mret ret
    end.

(** ** The exported operations, lines 163-218 *)

Definition AppleCryptoNative_StoreEnumerateUserRoot (pCertsOut pOSStatusOut : ptr) : M Z :=
  when (negb (is_null pCertsOut)) (store_certs pCertsOut None);;
  EnumerateTrust kSecTrustSettingsDomainUser kSecTrustSettingsResultTrustRoot
    pCertsOut pOSStatusOut.

Definition AppleCryptoNative_StoreEnumerateMachineRoot (pCertsOut pOSStatusOut : ptr) : M Z :=
  when (negb (is_null pCertsOut)) (store_certs pCertsOut None);;
  ret ← EnumerateTrust kSecTrustSettingsDomainAdmin kSecTrustSettingsResultTrustRoot
          pCertsOut pOSStatusOut;
  if ret =? 1 then
    EnumerateTrust kSecTrustSettingsDomainSystem kSecTrustSettingsResultTrustRoot
      pCertsOut pOSStatusOut
  else mret ret.

Definition AppleCryptoNative_StoreEnumerateUserDisallowed (pCertsOut pOSStatusOut : ptr) : M Z :=
  when (negb (is_null pCertsOut)) (store_certs pCertsOut None);;
  EnumerateTrust kSecTrustSettingsDomainUser kSecTrustSettingsResultDeny
    pCertsOut pOSStatusOut.

Definition AppleCryptoNative_StoreEnumerateMachineDisallowed (pCertsOut pOSStatusOut : ptr) : M Z :=
  when (negb (is_null pCertsOut)) (store_certs pCertsOut None);;
  ret ← EnumerateTrust kSecTrustSettingsDomainAdmin kSecTrustSettingsResultDeny
          pCertsOut pOSStatusOut;
  if ret =? 1 then
    EnumerateTrust kSecTrustSettingsDomainSystem kSecTrustSettingsResultDeny
      pCertsOut pOSStatusOut
  else mret ret.

End Code.

(** * Vocabulary of the statements *)

(** ** Reading the evaluator's result

    [Evaluate] is the contract view of [CheckTrustMatch] called with a
    usable status pointer: the returned [isMatch] and the status left in
    the caller's cell. *)
Definition Evaluate (P : Platform) (cert : SecCertificateRef)
    (domain : SecTrustSettingsDomain) (desired : SecTrustSettingsResult)
    (m : Memory) : option (bool * OSStatus) :=
  match CheckTrustMatch P cert domain desired caller_cell m with
  | Done isMatch m' => Some (isMatch, osStatusOut m')
  | Crash => None
  end.

(** [isMatch] as a function of what the store answered. *)
Definition isMatch_of (answer : OSStatus * option (list CFType))
    (result : SecTrustSettingsResult) : bool :=
  match answer with
  | (status, Some items) =>
      if status =? noErr then
        match items with
        | [] => result =? kSecTrustSettingsResultTrustRoot
        | _ :: _ => CheckTrustMatch_scan result items
        end
      else false
  | (_, None) => false
  end.

(** A record that decides the scan: a dictionary whose only key is the
    reserved one, holding a number with a signed 32-bit value. *)
Definition applicable (obj : CFType) (n : Z) : Prop :=
  ∃ dict : gmap string CFType,
    obj = CFDictionary dict ∧ size dict = 1%nat ∧
    dict !! kSecTrustSettingsResult = Some (CFNumber n) ∧
    - 2 ^ 31 <= n < 2 ^ 31.

(** A record asserting [outcome] and nothing else. *)
Definition outcome_record (outcome : SecTrustSettingsResult) : CFType :=
  CFDictionary {[ kSecTrustSettingsResult := CFNumber outcome ]}.

(** ** Reading the enumerator's result *)

(** The certificates among the objects the store listed, in order. *)
Definition certificates (objs : list CFType) : list SecCertificateRef :=
  omap (λ obj, match obj with SecCertificate cert => Some cert | _ => None end) objs.

(** The settings queries for the certificates of a listing, in order. *)
Definition settings_calls (domain : SecTrustSettingsDomain) (objs : list CFType)
  : list StoreCall :=
  (λ cert, CopyTrustSettings cert domain) <$> certificates objs.

(** The store can read the settings of a listed object (objects that are
    no certificates are never queried). *)
Definition readable (P : Platform) (domain : SecTrustSettingsDomain)
    (obj : CFType) : Prop :=
  match obj with
  | SecCertificate cert => fst (SecTrustSettingsCopyTrustSettings P cert domain) = noErr
  | _ => True
  end.

(** A listed object is a certificate the evaluator matches. *)
Definition matches_desired (P : Platform) (domain : SecTrustSettingsDomain)
    (result : SecTrustSettingsResult) (obj : CFType) : bool :=
  match obj with
  | SecCertificate cert =>
      isMatch_of (SecTrustSettingsCopyTrustSettings P cert domain) result
  | _ => false
  end.

(** The matches among listed objects, in listing order. *)
Definition matching (P : Platform) (domain : SecTrustSettingsDomain)
    (result : SecTrustSettingsResult) (objs : list CFType) : list CFType :=
  List.filter (matches_desired P domain result) objs.

(** What a domain contributes: the matching certificates of its listing,
    in store enumeration order; nothing when the store lists nothing. *)
Definition domain_matches (P : Platform) (domain : SecTrustSettingsDomain)
    (result : SecTrustSettingsResult) : list CFType :=
  match SecTrustSettingsCopyCertificates P domain with
  | (status, Some objs) =>
      if status =? noErr then matching P domain result objs else []
  | (_, None) => []
  end.

(** The settings queries an enumeration of the domain makes when every
    listed certificate can be read. *)
Definition domain_calls (P : Platform) (domain : SecTrustSettingsDomain)
  : list StoreCall :=
  CopyCertificates domain ::
  match SecTrustSettingsCopyCertificates P domain with
  | (status, Some objs) => if status =? noErr then settings_calls domain objs else []
  | (_, None) => []
  end.

(** The store side of a successful enumeration of a domain: either it has
    no settings in the domain, or it lists objects and every certificate
    among them can be read. *)
Definition domain_succeeds (P : Platform) (domain : SecTrustSettingsDomain) : Prop :=
  fst (SecTrustSettingsCopyCertificates P domain) = errSecNoTrustSettings ∨
  ∃ objs, SecTrustSettingsCopyCertificates P domain = (noErr, Some objs) ∧
          Forall (readable P domain) objs.

(** The store side of a failed enumeration, with the store's error code:
    the listing fails, or the first certificate that cannot be read. *)
Inductive domain_fails (P : Platform) (domain : SecTrustSettingsDomain)
  : OSStatus → Prop :=
| fails_listing status left :
    SecTrustSettingsCopyCertificates P domain = (status, left) →
    status ≠ noErr → status ≠ errSecNoTrustSettings →
    domain_fails P domain status
| fails_reading pre cert post status :
    SecTrustSettingsCopyCertificates P domain
      = (noErr, Some (pre ++ SecCertificate cert :: post)) →
    Forall (readable P domain) pre →
    fst (SecTrustSettingsCopyTrustSettings P cert domain) = status →
    status ≠ noErr →
    domain_fails P domain status.

(** The store keeps the contract of the listing call: success comes with
    an array. *)
Definition listing_contract (P : Platform) : Prop :=
  ∀ domain, fst (SecTrustSettingsCopyCertificates P domain) = noErr →
            is_Some (snd (SecTrustSettingsCopyCertificates P domain)).

(** The match set the caller sees through the collection cell: nothing
    when the cell is null. *)
Definition collection (m : Memory) : list CFType :=
  match certsOut m with
  | Some a => default [] (arrays m !! a)
  | None => []
  end.

(** The memory once [added] has been appended to the array [out], which
    held [items], and [calls] have been made. *)
Definition appended (out : CFMutableArrayRef) (items added : list CFType)
    (calls : list StoreCall) (m : Memory) : Memory :=
  {| certsOut := certsOut m; osStatusOut := osStatusOut m;
     arrays := <[out := items ++ added]> (arrays m);
     allocations := allocations m; storeCalls := storeCalls m ++ calls |}.

(** The memory once the array [out] has been released and the collection
    cell nulled (lines 156-157). *)
Definition discard (out : CFMutableArrayRef) (m : Memory) : Memory :=
  set_certsOut None (set_arrays (delete out (arrays m)) m).

(** The memory at line 160 of a successful enumeration into [out], which
    held [items]: the matches are appended and the status is success; an
    array that ends empty is discarded. *)
Definition enumerated (P : Platform) (domain : SecTrustSettingsDomain)
    (result : SecTrustSettingsResult) (out : CFMutableArrayRef)
    (items : list CFType) (m : Memory) : Memory :=
  let m' := appended out items (domain_matches P domain result)
              (domain_calls P domain) (set_osStatusOut noErr m) in
  match items ++ domain_matches P domain result with
  | [] => discard out m'
  | _ :: _ => m'
  end.

(** The array a call of [EnumerateTrust] without an array to continue
    creates, and the memory right after its creation (lines 97-98). *)
Definition fresh_array (m : Memory) : CFMutableArrayRef := fresh (dom (arrays m)).

Definition created (m : Memory) : Memory :=
  count_allocation
    (set_certsOut (Some (fresh_array m))
       (set_arrays (<[fresh_array m := []]> (arrays m)) m)).

(** [EnumerateTrust] gets an array to collect into: the collection cell
    holds a live array, or it is null and the allocation succeeds. *)
Definition accumulator_ready (P : Platform) (m : Memory) : Prop :=
  match certsOut m with
  | Some out => is_Some (arrays m !! out)
  | None => CFArrayCreateMutable_succeeds P (allocations m) = true
  end.

(** The collection cell is null or holds a live array that is not
    empty. *)
Definition presented (m : Memory) : Prop :=
  match certsOut m with
  | Some out => ∃ item items, arrays m !! out = Some (item :: items)
  | None => True
  end.

(** The four exported operations. *)
Inductive Operation :=
| EnumerateUserRoots
| EnumerateMachineRoots
| EnumerateUserDisallowed
| EnumerateMachineDisallowed.

Definition run (P : Platform) (op : Operation) : ptr → ptr → M Z :=
  match op with
  | EnumerateUserRoots => AppleCryptoNative_StoreEnumerateUserRoot P
  | EnumerateMachineRoots => AppleCryptoNative_StoreEnumerateMachineRoot P
  | EnumerateUserDisallowed => AppleCryptoNative_StoreEnumerateUserDisallowed P
  | EnumerateMachineDisallowed => AppleCryptoNative_StoreEnumerateMachineDisallowed P
  end.

Definition desired_outcome (op : Operation) : SecTrustSettingsResult :=
  match op with
  | EnumerateUserRoots | EnumerateMachineRoots => kSecTrustSettingsResultTrustRoot
  | EnumerateUserDisallowed | EnumerateMachineDisallowed => kSecTrustSettingsResultDeny
  end.

(** The machine scope spans two domains, the user scope one. *)
Definition machine_scope (op : Operation) : bool :=
  match op with
  | EnumerateMachineRoots | EnumerateMachineDisallowed => true
  | EnumerateUserRoots | EnumerateUserDisallowed => false
  end.

(** The collection cell is null or holds a live array. *)
Definition usable (m : Memory) : Prop :=
  match certsOut m with
  | Some out => is_Some (arrays m !! out)
  | None => True
  end.

(** ** A sample store

    Admin lists certificates 1, 2 and 3 (and an object that is no
    certificate); the System and User answers are parameters.  Certificate
    1 has an empty settings array, 2 a Deny record followed by a TrustRoot
    record, 3 a constrained TrustRoot record followed by a plain Deny
    record, 4 no settings array at all, 5 cannot be read, any other a
    single TrustRoot record. *)
Definition errSecNotAvailable : OSStatus := -25291.
Definition errSecInteractionNotAllowed : OSStatus := -25308.

Definition constrained_record (outcome : SecTrustSettingsResult) : CFType :=
  CFDictionary {[ kSecTrustSettingsResult := CFNumber outcome;
                  "kSecTrustSettingsPolicyName" := CFString "sslServer" ]}.

Definition sample_settings (cert : SecCertificateRef) : OSStatus * option (list CFType) :=
  match cert with
  | 1%positive => (noErr, Some [])
  | 2%positive => (noErr, Some [outcome_record kSecTrustSettingsResultDeny;
                                outcome_record kSecTrustSettingsResultTrustRoot])
  | 3%positive => (noErr, Some [constrained_record kSecTrustSettingsResultTrustRoot;
                                outcome_record kSecTrustSettingsResultDeny])
  | 4%positive => (noErr, None)
  | 5%positive => (errSecNotAvailable, None)
  | _ => (noErr, Some [outcome_record kSecTrustSettingsResultTrustRoot])
  end.

Definition sample_store (user system : OSStatus * option (list CFType)) : Platform :=
  {| SecTrustSettingsCopyCertificates := λ domain,
       match domain with
       | kSecTrustSettingsDomainUser => user
       | kSecTrustSettingsDomainAdmin =>
           (noErr, Some [SecCertificate 1%positive; CFString "not a certificate";
                         SecCertificate 2%positive; SecCertificate 3%positive])
       | kSecTrustSettingsDomainSystem => system
       end;
     SecTrustSettingsCopyTrustSettings := λ cert _, sample_settings cert;
     CFArrayCreateMutable_succeeds := λ _, true |}.

(** A store whose listing answers the same way in every domain. *)
Definition uniform_store (listing : OSStatus * option (list CFType)) : Platform :=
  {| SecTrustSettingsCopyCertificates := λ _, listing;
     SecTrustSettingsCopyTrustSettings := λ cert _, sample_settings cert;
     CFArrayCreateMutable_succeeds := λ _, true |}.

(** A caller's memory before a call: the output cells hold leftovers. *)
Definition sample_memory : Memory :=
  {| certsOut := Some 9%positive; osStatusOut := 99; arrays := ∅;
     allocations := 0; storeCalls := [] |}.

(** A memory in the middle of a chain: the collection cell holds a live
    array with one match. *)
Definition sample_memory_collecting : Memory :=
  {| certsOut := Some 2%positive; osStatusOut := noErr;
     arrays := {[ 2%positive := [SecCertificate 1%positive] ]};
     allocations := 1; storeCalls := [CopyCertificates kSecTrustSettingsDomainAdmin] |}.

(** The domain a store access is about. *)
Definition call_domain (c : StoreCall) : SecTrustSettingsDomain :=
  match c with
  | CopyCertificates domain => domain
  | CopyTrustSettings _ domain => domain
  end.

(** The objects of a domain's listing; none when the store hands back no
    array. *)
Definition listed (P : Platform) (domain : SecTrustSettingsDomain) : list CFType :=
  default [] (snd (SecTrustSettingsCopyCertificates P domain)).

(** A store that lists certificate 1 in every domain and answers every
    settings query with [answer]. *)
Definition settings_store (answer : OSStatus * option (list CFType)) : Platform :=
  {| SecTrustSettingsCopyCertificates := λ _, (noErr, Some [SecCertificate 1%positive]);
     SecTrustSettingsCopyTrustSettings := λ _ _, answer;
     CFArrayCreateMutable_succeeds := λ _, true |}.

(** The sample store on a machine where no array can be created. *)
Definition exhausted_store : Platform :=
  {| SecTrustSettingsCopyCertificates :=
       SecTrustSettingsCopyCertificates (sample_store (noErr, Some []) (noErr, Some []));
     SecTrustSettingsCopyTrustSettings := λ cert _, sample_settings cert;
     CFArrayCreateMutable_succeeds := λ _, false |}.

(** The store accesses of one enumeration of a domain: none, or the
    listing followed by one settings query for each certificate of an
    initial part of the listing, in listing order. *)
Definition access_pattern (P : Platform) (domain : SecTrustSettingsDomain)
    (calls : list StoreCall) : Prop :=
  calls = [] ∨
  ∃ queried, calls = CopyCertificates domain
                     :: ((λ cert, CopyTrustSettings cert domain) <$> queried) ∧
             queried `prefix_of` certificates (listed P domain).

(** What an enumeration does to the arrays: the array it collects into
    (the one of the collection cell, or a new one) is either released,
    with the cell null, or left in the cell, not empty; no other array is
    touched. *)
Definition array_kept_or_released (m m' : Memory) : Prop :=
  let out := default (fresh_array m) (certsOut m) in
  (certsOut m' = None ∧ arrays m' = delete out (arrays m)) ∨
  (certsOut m' = Some out ∧
   ∃ item items, arrays m' = <[out := item :: items]> (arrays m)).

(** The return value and the status cell agree: success with the success
    code, or failure with another code and a null collection cell. *)
Definition return_agrees_with_status (ret : Z) (m' : Memory) : Prop :=
  (ret = 1 ∧ osStatusOut m' = noErr) ∨
  (ret = 0 ∧ osStatusOut m' ≠ noErr ∧ certsOut m' = None).

(** A store where certificate 1 is a trusted root for the Admin domain and
    denied in the other domains. *)
Definition split_store : Platform :=
  {| SecTrustSettingsCopyCertificates := λ _, (noErr, Some [SecCertificate 1%positive]);
     SecTrustSettingsCopyTrustSettings := λ _ domain,
       match domain with
       | kSecTrustSettingsDomainAdmin =>
           (noErr, Some [outcome_record kSecTrustSettingsResultTrustRoot])
       | _ => (noErr, Some [outcome_record kSecTrustSettingsResultDeny])
       end;
     CFArrayCreateMutable_succeeds := λ _, true |}.

(** What a caller can see of a call: the return value, the status cell,
    the match set and the store accesses made; [None] when the call has no
    defined behaviour. *)
Definition observed (o : outcome Z)
  : option (Z * OSStatus * list CFType * list StoreCall) :=
  match o with
  | Done ret m => Some (ret, osStatusOut m, collection m, storeCalls m)
  | Crash => None
  end.

(** Unfolds a call of [EnumerateTrust] down to the store answers. *)
Ltac run_EnumerateTrust :=
  unfold EnumerateTrust, call_CopyCertificates, CFArrayGetCount, CFRelease,
    CFArrayCreateMutable, when, mbind, M_bind, mret, M_ret; simpl.

(** * The code at sample inputs *)

Example machine_roots_sample :
  observed (AppleCryptoNative_StoreEnumerateMachineRoot
              (sample_store (errSecNoTrustSettings, None)
                 (noErr, Some [SecCertificate 1%positive; SecCertificate 6%positive]))
              caller_cell caller_cell sample_memory)
  = Some (1, noErr,
          [SecCertificate 1%positive; SecCertificate 1%positive; SecCertificate 6%positive],
          [CopyCertificates kSecTrustSettingsDomainAdmin;
           CopyTrustSettings 1%positive kSecTrustSettingsDomainAdmin;
           CopyTrustSettings 2%positive kSecTrustSettingsDomainAdmin;
           CopyTrustSettings 3%positive kSecTrustSettingsDomainAdmin;
           CopyCertificates kSecTrustSettingsDomainSystem;
           CopyTrustSettings 1%positive kSecTrustSettingsDomainSystem;
           CopyTrustSettings 6%positive kSecTrustSettingsDomainSystem]).
Proof. vm_compute. reflexivity. Qed.

Example machine_disallowed_sample :
  observed (AppleCryptoNative_StoreEnumerateMachineDisallowed
              (sample_store (errSecNoTrustSettings, None)
                 (noErr, Some [SecCertificate 1%positive; SecCertificate 6%positive]))
              caller_cell caller_cell sample_memory)
  = Some (1, noErr,
          [SecCertificate 2%positive; SecCertificate 3%positive],
          [CopyCertificates kSecTrustSettingsDomainAdmin;
           CopyTrustSettings 1%positive kSecTrustSettingsDomainAdmin;
           CopyTrustSettings 2%positive kSecTrustSettingsDomainAdmin;
           CopyTrustSettings 3%positive kSecTrustSettingsDomainAdmin;
           CopyCertificates kSecTrustSettingsDomainSystem;
           CopyTrustSettings 1%positive kSecTrustSettingsDomainSystem;
           CopyTrustSettings 6%positive kSecTrustSettingsDomainSystem]).
Proof. vm_compute. reflexivity. Qed.

Example machine_roots_system_unreadable_sample :
  observed (AppleCryptoNative_StoreEnumerateMachineRoot
              (sample_store (errSecNoTrustSettings, None)
                 (noErr, Some [SecCertificate 6%positive; SecCertificate 5%positive;
                               SecCertificate 1%positive]))
              caller_cell caller_cell sample_memory)
  = Some (0, errSecNotAvailable, [],
          [CopyCertificates kSecTrustSettingsDomainAdmin;
           CopyTrustSettings 1%positive kSecTrustSettingsDomainAdmin;
           CopyTrustSettings 2%positive kSecTrustSettingsDomainAdmin;
           CopyTrustSettings 3%positive kSecTrustSettingsDomainAdmin;
           CopyCertificates kSecTrustSettingsDomainSystem;
           CopyTrustSettings 6%positive kSecTrustSettingsDomainSystem;
           CopyTrustSettings 5%positive kSecTrustSettingsDomainSystem]).
Proof. vm_compute. reflexivity. Qed.

Example user_roots_no_settings_sample :
  observed (AppleCryptoNative_StoreEnumerateUserRoot
              (sample_store (errSecNoTrustSettings, None) (noErr, None))
              caller_cell caller_cell sample_memory)
  = Some (1, noErr, [], [CopyCertificates kSecTrustSettingsDomainUser]).
Proof. vm_compute. reflexivity. Qed.

Example user_roots_listing_without_array_sample :
  observed (AppleCryptoNative_StoreEnumerateUserRoot
              (sample_store (noErr, None) (noErr, None))
              caller_cell caller_cell sample_memory)
  = None.
Proof. vm_compute. reflexivity. Qed.

Example user_disallowed_no_status_pointer_sample :
  observed (AppleCryptoNative_StoreEnumerateUserDisallowed
              (sample_store (noErr, None) (noErr, None))
              caller_cell nullptr sample_memory)
  = Some (-1, 99, [], []).
Proof. vm_compute. reflexivity. Qed.

(** * Lemmas *)

Lemma memory_eq (m1 m2 : Memory) :
  certsOut m1 = certsOut m2 → osStatusOut m1 = osStatusOut m2 →
  arrays m1 = arrays m2 → allocations m1 = allocations m2 →
  storeCalls m1 = storeCalls m2 → m1 = m2.
Proof. destruct m1, m2; simpl; intros; subst; reflexivity. Qed.

Lemma CheckTrustMatch_run P cert domain result m :
  CheckTrustMatch P cert domain result caller_cell m =
  Done (isMatch_of (SecTrustSettingsCopyTrustSettings P cert domain) result)
       (set_osStatusOut (fst (SecTrustSettingsCopyTrustSettings P cert domain))
          (log_call (CopyTrustSettings cert domain) m)).
Proof.
  unfold CheckTrustMatch, call_CopyTrustSettings, mbind, M_bind, isMatch_of.
  destruct (SecTrustSettingsCopyTrustSettings P cert domain) as [status [items|]];
    simpl; destruct (status =? noErr) eqn:Hst; try reflexivity.
  destruct items as [|obj rest]; simpl; [|reflexivity].
  apply Z.eqb_eq in Hst. subst status. reflexivity.
Qed.

Lemma Evaluate_run P cert domain desired m :
  Evaluate P cert domain desired m =
  Some (isMatch_of (SecTrustSettingsCopyTrustSettings P cert domain) desired,
        fst (SecTrustSettingsCopyTrustSettings P cert domain)).
Proof. unfold Evaluate. rewrite CheckTrustMatch_run. reflexivity. Qed.

Lemma size_le_1_lookup (dict : gmap string CFType) k v :
  dict !! k = Some v → (size dict ≤ 1)%nat → size dict = 1%nat.
Proof.
  intros Hk Hle. destruct (size dict) as [|n] eqn:Hs; [|lia].
  apply map_size_empty_inv in Hs. subst dict. rewrite lookup_empty in Hk. discriminate.
Qed.

(** The loop body decides exactly on the applicable records, with the
    number read as an unsigned 32-bit value. *)
Lemma CheckTrustMatch_record_Some obj v :
  CheckTrustMatch_record obj = Some v ↔ ∃ n, applicable obj n ∧ v = as_uint32 n.
Proof.
  split.
  - destruct obj as [| | | | |dict|]; simpl; try discriminate.
    destruct (1 <? Z.of_nat (size dict)) eqn:Hsz; [discriminate|].
    apply Z.ltb_ge in Hsz.
    destruct (dict !! kSecTrustSettingsResult) as [val|] eqn:Hval; [|discriminate].
    destruct (decide (CFGetTypeID val = CFNumberTypeID)) as [Hty|]; [|discriminate].
    destruct val as [| |n| | | |]; simpl in *; try discriminate.
    destruct ((- 2 ^ 31 <=? n) && (n <? 2 ^ 31)) eqn:Hrange; [|discriminate].
    intros [= <-]. exists n. split; [|reflexivity].
    exists dict. apply andb_true_iff in Hrange as [H1%Z.leb_le H2%Z.ltb_lt].
    repeat split; try assumption.
    apply (size_le_1_lookup _ _ _ Hval). lia.
  - intros (n & (dict & -> & Hsz & Hval & Hlo & Hhi) & ->). simpl.
    rewrite Hsz, Hval. simpl.
    destruct (decide (CFNumberTypeID = CFNumberTypeID)) as [_|Hne]; [|contradiction].
    assert (Hr : (- 2 ^ 31 <=? n) && (n <? 2 ^ 31) = true).
    { apply andb_true_iff. split; [apply Z.leb_le | apply Z.ltb_lt]; assumption. }
    rewrite Hr. reflexivity.
Qed.

Lemma CheckTrustMatch_record_None obj :
  CheckTrustMatch_record obj = None ↔ ∀ n, ¬ applicable obj n.
Proof.
  split.
  - intros Hnone n Happ.
    assert (CheckTrustMatch_record obj = Some (as_uint32 n)) as Hsome
      by (apply CheckTrustMatch_record_Some; eauto).
    congruence.
  - intros Hno. destruct (CheckTrustMatch_record obj) as [v|] eqn:Hrec; [|reflexivity].
    apply CheckTrustMatch_record_Some in Hrec as (n & Happ & _).
    destruct (Hno n Happ).
Qed.

Lemma CheckTrustMatch_record_multi_key (dict : gmap string CFType) :
  (1 < size dict)%nat → CheckTrustMatch_record (CFDictionary dict) = None.
Proof.
  intros Hsz. simpl.
  destruct (1 <? Z.of_nat (size dict)) eqn:E; [reflexivity|].
  apply Z.ltb_ge in E. lia.
Qed.

(** Records the loop body skips do not influence the scan. *)
Lemma CheckTrustMatch_scan_skip result pre rest :
  Forall (λ o, CheckTrustMatch_record o = None) pre →
  CheckTrustMatch_scan result (pre ++ rest) = CheckTrustMatch_scan result rest.
Proof.
  induction 1 as [|o pre Ho _ IH]; simpl; [reflexivity|].
  rewrite Ho. exact IH.
Qed.

Lemma CheckTrustMatch_scan_drop result pre obj post :
  CheckTrustMatch_record obj = None →
  CheckTrustMatch_scan result (pre ++ obj :: post) =
  CheckTrustMatch_scan result (pre ++ post).
Proof.
  intros Hobj. induction pre as [|o pre IH]; simpl.
  - rewrite Hobj. reflexivity.
  - destruct (CheckTrustMatch_record o); [reflexivity | exact IH].
Qed.

(** A reported match always comes from a deciding record of the array. *)
Lemma CheckTrustMatch_scan_true result settings :
  CheckTrustMatch_scan result settings = true →
  ∃ obj n, obj ∈ settings ∧ applicable obj n ∧ as_uint32 n = result.
Proof.
  induction settings as [|o rest IH]; simpl; [discriminate|].
  destruct (CheckTrustMatch_record o) as [v|] eqn:Hrec.
  - intros Heq%Z.eqb_eq. apply CheckTrustMatch_record_Some in Hrec as (n & Happ & ->).
    exists o, n. split; [apply list_elem_of_here | split; assumption].
  - intros (obj & n & Hin & Happ & Hres)%IH.
    exists obj, n. split; [apply list_elem_of_further; assumption | split; assumption].
Qed.

(** [matches_desired] is the evaluator's verdict on a listed certificate. *)
Lemma matches_desired_Evaluate P domain result cert m :
  Evaluate P cert domain result m
  = Some (matches_desired P domain result (SecCertificate cert),
          fst (SecTrustSettingsCopyTrustSettings P cert domain)).
Proof. apply Evaluate_run. Qed.

(** * The evaluator *)

(** C1. When the store hands back a present but empty settings array for a
    certificate in a domain, the evaluator answers with the success
    status, and it reports a match if and only if the desired outcome is
    TrustRoot: TrustRoot gives (true, success), Deny gives (false,
    success). *)
Theorem empty_settings_match_iff_TrustRoot P cert domain m :
  SecTrustSettingsCopyTrustSettings P cert domain = (noErr, Some []) →
  Evaluate P cert domain kSecTrustSettingsResultTrustRoot m = Some (true, noErr) ∧
  Evaluate P cert domain kSecTrustSettingsResultDeny m = Some (false, noErr) ∧
  ∀ desired, ∃ isMatch,
    Evaluate P cert domain desired m = Some (isMatch, noErr) ∧
    (isMatch = true ↔ desired = kSecTrustSettingsResultTrustRoot).
Proof.
  intros Hstore. repeat split.
  - rewrite Evaluate_run, Hstore. reflexivity.
  - rewrite Evaluate_run, Hstore. reflexivity.
  - intros desired. exists (desired =? kSecTrustSettingsResultTrustRoot).
    split; [rewrite Evaluate_run, Hstore; reflexivity | apply Z.eqb_eq].
Qed.

Lemma empty_settings_match_iff_TrustRoot_witness :
  Evaluate (sample_store (noErr, None) (noErr, None)) 1%positive
    kSecTrustSettingsDomainAdmin kSecTrustSettingsResultTrustRoot sample_memory
  = Some (true, noErr).
Proof.
  apply (empty_settings_match_iff_TrustRoot
           (sample_store (noErr, None) (noErr, None)) 1%positive
           kSecTrustSettingsDomainAdmin sample_memory).
  reflexivity.
Defined.

(** C2. A record with more than one key never causes a match: whatever
    outcome it asserts and whatever outcome is desired, the loop body
    skips it, the evaluator's answer is the scan of the other records of
    the array, and a reported match is due to another record, one whose
    only key is the reserved one and whose number is the desired
    outcome. *)
Theorem multi_key_record_never_matches P cert domain desired m status pre dict post :
  (1 < size dict)%nat →
  SecTrustSettingsCopyTrustSettings P cert domain
    = (status, Some (pre ++ CFDictionary dict :: post)) →
  CheckTrustMatch_record (CFDictionary dict) = None ∧
  ∃ isMatch,
    Evaluate P cert domain desired m = Some (isMatch, status) ∧
    (status = noErr → isMatch = CheckTrustMatch_scan desired (pre ++ post)) ∧
    (isMatch = true →
     ∃ obj n, obj ∈ pre ++ post ∧ applicable obj n ∧ as_uint32 n = desired).
Proof.
  intros Hsz Hstore.
  pose proof (CheckTrustMatch_record_multi_key dict Hsz) as Hskip.
  split; [exact Hskip|].
  exists (isMatch_of (status, Some (pre ++ CFDictionary dict :: post)) desired).
  split; [rewrite Evaluate_run, Hstore; reflexivity|].
  assert (Hscan : isMatch_of (status, Some (pre ++ CFDictionary dict :: post)) desired
                  = if status =? noErr then CheckTrustMatch_scan desired (pre ++ post)
                    else false).
  { unfold isMatch_of. destruct (status =? noErr); [|reflexivity].
    rewrite <- (CheckTrustMatch_scan_drop desired pre (CFDictionary dict) post Hskip).
    destruct pre; reflexivity. }
  rewrite Hscan. split.
  - intros ->. reflexivity.
  - destruct (status =? noErr); [|discriminate].
    apply CheckTrustMatch_scan_true.
Qed.

Lemma multi_key_record_never_matches_witness :
  ∃ isMatch,
    Evaluate (sample_store (noErr, None) (noErr, None)) 3%positive
      kSecTrustSettingsDomainAdmin kSecTrustSettingsResultTrustRoot sample_memory
    = Some (isMatch, noErr) ∧
    (noErr = noErr → isMatch = CheckTrustMatch_scan kSecTrustSettingsResultTrustRoot
                     ([] ++ [outcome_record kSecTrustSettingsResultDeny])) ∧
    (isMatch = true →
     ∃ obj n, obj ∈ [] ++ [outcome_record kSecTrustSettingsResultDeny] ∧
              applicable obj n ∧ as_uint32 n = kSecTrustSettingsResultTrustRoot).
Proof.
  refine (proj2 (multi_key_record_never_matches
           (sample_store (noErr, None) (noErr, None)) 3%positive kSecTrustSettingsDomainAdmin
           kSecTrustSettingsResultTrustRoot sample_memory noErr []
           {[ kSecTrustSettingsResult := CFNumber kSecTrustSettingsResultTrustRoot;
              "kSecTrustSettingsPolicyName" := CFString "sslServer" ]}
           [outcome_record kSecTrustSettingsResultDeny] _ _)).
  - vm_compute. lia.
  - reflexivity.
Defined.

(** C3. The scan goes through the settings array in order and the first
    applicable record wins: when every record before [rec] is skipped and
    [rec] is a dictionary whose only key is the reserved one, holding a
    number [n] with a signed 32-bit value, the evaluator answers
    [n == desired] (read as unsigned 32-bit) with the success status,
    whatever records follow.  In particular a Deny record followed by a
    TrustRoot record gives no match for TrustRoot. *)
Theorem first_applicable_record_wins P cert domain desired m pre rec n post :
  SecTrustSettingsCopyTrustSettings P cert domain = (noErr, Some (pre ++ rec :: post)) →
  Forall (λ o, ∀ k, ¬ applicable o k) pre →
  applicable rec n →
  Evaluate P cert domain desired m = Some (as_uint32 n =? desired, noErr) ∧
  CheckTrustMatch_scan desired (pre ++ rec :: post)
    = CheckTrustMatch_scan desired (pre ++ [rec]) ∧
  ∀ P' cert' domain' m',
    SecTrustSettingsCopyTrustSettings P' cert' domain'
      = (noErr, Some [outcome_record kSecTrustSettingsResultDeny;
                      outcome_record kSecTrustSettingsResultTrustRoot]) →
    Evaluate P' cert' domain' kSecTrustSettingsResultTrustRoot m' = Some (false, noErr).
Proof.
  intros Hstore Hpre Hrec.
  assert (Hskip : Forall (λ o, CheckTrustMatch_record o = None) pre).
  { eapply Forall_impl; [exact Hpre|]. intros o Ho. apply CheckTrustMatch_record_None, Ho. }
  assert (Hdec : CheckTrustMatch_record rec = Some (as_uint32 n))
    by (apply CheckTrustMatch_record_Some; eauto).
  assert (Hscan : ∀ rest, CheckTrustMatch_scan desired (pre ++ rec :: rest)
                          = (as_uint32 n =? desired)).
  { intros rest. rewrite CheckTrustMatch_scan_skip by exact Hskip. simpl.
    rewrite Hdec. reflexivity. }
  repeat split.
  - rewrite Evaluate_run, Hstore. unfold isMatch_of. simpl.
    rewrite <- (Hscan post). destruct pre; reflexivity.
  - rewrite (Hscan post), (Hscan []). reflexivity.
  - intros P' cert' domain' m' Hstore'. rewrite Evaluate_run, Hstore'. reflexivity.
Qed.

Lemma outcome_record_applicable n :
  - 2 ^ 31 <= n < 2 ^ 31 → applicable (outcome_record n) n.
Proof.
  intros Hn. exists {[ kSecTrustSettingsResult := CFNumber n ]}.
  split; [reflexivity|]. split; [apply map_size_singleton|].
  split; [apply lookup_singleton_eq | exact Hn].
Qed.

Lemma first_applicable_record_wins_witness :
  Evaluate (sample_store (noErr, None) (noErr, None)) 2%positive
    kSecTrustSettingsDomainAdmin kSecTrustSettingsResultTrustRoot sample_memory
  = Some (false, noErr).
Proof.
  refine (proj1 (first_applicable_record_wins
           (sample_store (noErr, None) (noErr, None)) 2%positive
           kSecTrustSettingsDomainAdmin kSecTrustSettingsResultTrustRoot sample_memory
           [] (outcome_record kSecTrustSettingsResultDeny) kSecTrustSettingsResultDeny
           [outcome_record kSecTrustSettingsResultTrustRoot] _ _ _)).
  - reflexivity.
  - constructor.
  - apply outcome_record_applicable. unfold kSecTrustSettingsResultDeny. lia.
Defined.

(** C10. When the store reports success but leaves the settings array
    absent (null), the evaluator reports no match with the success status
    for every desired outcome, TrustRoot included, unlike the rule for a
    present but empty array. *)
Theorem absent_settings_never_match P cert domain m :
  SecTrustSettingsCopyTrustSettings P cert domain = (noErr, None) →
  (∀ desired, Evaluate P cert domain desired m = Some (false, noErr)) ∧
  Evaluate P cert domain kSecTrustSettingsResultTrustRoot m = Some (false, noErr).
Proof.
  intros Hstore.
  assert (∀ desired, Evaluate P cert domain desired m = Some (false, noErr)) as Hall.
  { intros desired. rewrite Evaluate_run, Hstore. reflexivity. }
  split; [exact Hall | apply Hall].
Qed.

Lemma absent_settings_never_match_witness :
  Evaluate (sample_store (noErr, None) (noErr, None)) 4%positive
    kSecTrustSettingsDomainSystem kSecTrustSettingsResultTrustRoot sample_memory
  = Some (false, noErr).
Proof.
  apply (absent_settings_never_match
           (sample_store (noErr, None) (noErr, None)) 4%positive
           kSecTrustSettingsDomainSystem sample_memory).
  reflexivity.
Defined.

(** * The enumerator's loop *)

Lemma appended_nothing out items m :
  arrays m !! out = Some items → appended out items [] [] m = m.
Proof.
  intros Hlive. apply memory_eq; simpl; try reflexivity.
  - rewrite app_nil_r. apply insert_id. exact Hlive.
  - apply app_nil_r.
Qed.

(** One iteration on a certificate. *)
Lemma EnumerateTrust_loop_cert P domain result out cert rest m :
  EnumerateTrust_loop P domain result out caller_cell (SecCertificate cert :: rest) m =
  let answer := SecTrustSettingsCopyTrustSettings P cert domain in
  let m1 := set_osStatusOut (fst answer) (log_call (CopyTrustSettings cert domain) m) in
  if fst answer =? noErr then
    if isMatch_of answer result then
      match arrays m !! out with
      | Some items =>
          EnumerateTrust_loop P domain result out caller_cell rest
            (set_arrays (<[out := items ++ [SecCertificate cert]]> (arrays m)) m1)
      | None => Crash
      end
    else EnumerateTrust_loop P domain result out caller_cell rest m1
  else Done tt m1.
Proof.
  cbn [EnumerateTrust_loop]. unfold mbind, M_bind.
  rewrite CheckTrustMatch_run. cbn [load_status osStatusOut set_osStatusOut].
  destruct (fst (SecTrustSettingsCopyTrustSettings P cert domain) =? noErr); simpl;
    [|reflexivity].
  destruct (isMatch_of (SecTrustSettingsCopyTrustSettings P cert domain) result); simpl;
    [|reflexivity].
  unfold CFArrayAppendValue. simpl.
  destruct (arrays m !! out); reflexivity.
Qed.

(** The loop over a prefix of readable objects appends the matches of the
    prefix, in order, makes one settings query per certificate, and goes
    on with the rest. *)
Lemma EnumerateTrust_loop_prefix P domain result out pre rest :
  Forall (readable P domain) pre →
  ∀ m items,
    arrays m !! out = Some items → osStatusOut m = noErr →
    EnumerateTrust_loop P domain result out caller_cell (pre ++ rest) m =
    EnumerateTrust_loop P domain result out caller_cell rest
      (appended out items (matching P domain result pre) (settings_calls domain pre) m).
Proof.
  induction 1 as [|obj pre Hobj _ IH]; intros m items Hlive Hst.
  - simpl. rewrite appended_nothing by exact Hlive. reflexivity.
  - destruct obj as [| | | | | |cert];
      try (simpl; exact (IH m items Hlive Hst)).
    simpl in Hobj.
    change ((SecCertificate cert :: pre) ++ rest)
      with (SecCertificate cert :: (pre ++ rest)).
    rewrite EnumerateTrust_loop_cert. cbn zeta. rewrite Hobj, Hlive.
    change (noErr =? noErr) with true. cbn iota.
    unfold matching, settings_calls. simpl.
    destruct (isMatch_of (SecTrustSettingsCopyTrustSettings P cert domain) result).
    + rewrite (IH _ (items ++ [SecCertificate cert])); simpl.
      * f_equal. apply memory_eq; simpl; try reflexivity.
        -- symmetry. exact Hst.
        -- rewrite insert_insert_eq, <- app_assoc. reflexivity.
        -- rewrite <- app_assoc. reflexivity.
      * apply lookup_insert_eq.
      * reflexivity.
    + rewrite (IH _ items); simpl.
      * f_equal. apply memory_eq; simpl; try reflexivity.
        -- symmetry. exact Hst.
        -- rewrite <- app_assoc. reflexivity.
      * exact Hlive.
      * reflexivity.
Qed.

Lemma EnumerateTrust_loop_readable P domain result out objs m items :
  Forall (readable P domain) objs →
  arrays m !! out = Some items → osStatusOut m = noErr →
  EnumerateTrust_loop P domain result out caller_cell objs m =
  Done tt (appended out items (matching P domain result objs)
             (settings_calls domain objs) m).
Proof.
  intros Hall Hlive Hst.
  rewrite <- (app_nil_r objs) at 1.
  rewrite (EnumerateTrust_loop_prefix P domain result out objs [] Hall m items Hlive Hst).
  reflexivity.
Qed.

Lemma EnumerateTrust_loop_unreadable P domain result out pre cert post m items :
  Forall (readable P domain) pre →
  fst (SecTrustSettingsCopyTrustSettings P cert domain) ≠ noErr →
  arrays m !! out = Some items → osStatusOut m = noErr →
  EnumerateTrust_loop P domain result out caller_cell (pre ++ SecCertificate cert :: post) m =
  Done tt (set_osStatusOut (fst (SecTrustSettingsCopyTrustSettings P cert domain))
             (appended out items (matching P domain result pre)
                (settings_calls domain pre ++ [CopyTrustSettings cert domain]) m)).
Proof.
  intros Hall Hbad Hlive Hst.
  rewrite (EnumerateTrust_loop_prefix P domain result out pre _ Hall m items Hlive Hst).
  rewrite EnumerateTrust_loop_cert. cbn zeta.
  apply Z.eqb_neq in Hbad. rewrite Hbad.
  f_equal. apply memory_eq; simpl; try reflexivity.
  rewrite <- app_assoc. reflexivity.
Qed.

(** * The enumerator *)

Lemma count_is_zero {A} (items : list A) :
  (Z.of_nat (length items) =? 0) = match items with [] => true | _ :: _ => false end.
Proof. destruct items; reflexivity. Qed.

(** A successful enumeration into a live array. *)
Lemma EnumerateTrust_succeeds P domain result m out items :
  domain_succeeds P domain →
  certsOut m = Some out → arrays m !! out = Some items →
  EnumerateTrust P domain result caller_cell caller_cell m =
  Done 1 (enumerated P domain result out items m).
Proof.
  intros Hstore Hout Hlive.
  unfold enumerated, domain_matches, domain_calls.
  run_EnumerateTrust. rewrite Hout. simpl.
  destruct Hstore as [Hnone | (objs & Hobjs & Hall)].
  - destruct (SecTrustSettingsCopyCertificates P domain) as [status left].
    simpl in Hnone. subst status. simpl.
    rewrite Hlive. simpl. rewrite count_is_zero.
    destruct left as [objs|]; simpl; rewrite app_nil_r;
      (destruct items as [|item items]; simpl; rewrite ?app_nil_r;
       [ rewrite Hlive; f_equal; apply memory_eq; simpl; try reflexivity;
         rewrite delete_insert_eq; reflexivity
       | f_equal; apply memory_eq; simpl; rewrite ?app_nil_r; try reflexivity;
         symmetry; apply insert_id; exact Hlive ]).
  - rewrite Hobjs. simpl.
    rewrite (EnumerateTrust_loop_readable P domain result out objs _ items Hall)
      by (simpl; auto).
    simpl. rewrite lookup_insert_eq. simpl. rewrite count_is_zero.
    destruct (items ++ matching P domain result objs) as [|item rest] eqn:Hall'; simpl.
    + rewrite lookup_insert_eq. f_equal. apply memory_eq; simpl; try reflexivity.
      rewrite <- app_assoc. reflexivity.
    + f_equal. apply memory_eq; simpl; try reflexivity.
      rewrite <- app_assoc. reflexivity.
Qed.

(** Without an array to continue, a successful allocation is followed by
    what the call does when handed the new array. *)
Lemma EnumerateTrust_created P domain result m :
  certsOut m = None → CFArrayCreateMutable_succeeds P (allocations m) = true →
  EnumerateTrust P domain result caller_cell caller_cell m =
  EnumerateTrust P domain result caller_cell caller_cell (created m).
Proof.
  intros Hnone Halloc. run_EnumerateTrust. rewrite Hnone. simpl. rewrite Halloc. reflexivity.
Qed.

Lemma EnumerateTrust_allocation_fails P domain result m :
  certsOut m = None → CFArrayCreateMutable_succeeds P (allocations m) = false →
  EnumerateTrust P domain result caller_cell caller_cell m =
  Done 0 (set_osStatusOut errSecAllocate (count_allocation m)).
Proof.
  intros Hnone Halloc. run_EnumerateTrust. rewrite Hnone. simpl. rewrite Halloc. simpl.
  f_equal. apply memory_eq; simpl; auto.
Qed.

Lemma EnumerateTrust_invalid_argument P domain result pCertsRef pOSStatus m :
  pCertsRef = nullptr ∨ pOSStatus = nullptr →
  EnumerateTrust P domain result pCertsRef pOSStatus m =
  Done (-1) (if is_null pOSStatus then m else set_osStatusOut noErr m).
Proof.
  intros [-> | ->]; destruct pCertsRef || destruct pOSStatus; reflexivity.
Qed.

(** The listing fails. *)
Lemma EnumerateTrust_listing_fails P domain result m out items status left :
  SecTrustSettingsCopyCertificates P domain = (status, left) →
  status ≠ noErr → status ≠ errSecNoTrustSettings →
  certsOut m = Some out → arrays m !! out = Some items →
  EnumerateTrust P domain result caller_cell caller_cell m =
  Done 0 (discard out (set_osStatusOut status (log_call (CopyCertificates domain) m))).
Proof.
  intros Hstore Hne1%Z.eqb_neq Hne2%Z.eqb_neq Hout Hlive.
  run_EnumerateTrust. rewrite Hout, Hstore. simpl.
  rewrite Hne1, Hne2. simpl. rewrite Hne1. simpl. rewrite Hlive. reflexivity.
Qed.

(** A listed certificate cannot be read. *)
Lemma EnumerateTrust_reading_fails P domain result m out items pre cert post :
  SecTrustSettingsCopyCertificates P domain
    = (noErr, Some (pre ++ SecCertificate cert :: post)) →
  Forall (readable P domain) pre →
  fst (SecTrustSettingsCopyTrustSettings P cert domain) ≠ noErr →
  certsOut m = Some out → arrays m !! out = Some items →
  EnumerateTrust P domain result caller_cell caller_cell m =
  Done 0 (discard out
            (set_osStatusOut (fst (SecTrustSettingsCopyTrustSettings P cert domain))
               (appended out items (matching P domain result pre)
                  (CopyCertificates domain :: settings_calls domain pre
                     ++ [CopyTrustSettings cert domain]) m))).
Proof.
  intros Hstore Hpre Hbad Hout Hlive.
  run_EnumerateTrust. rewrite Hout, Hstore. simpl.
  rewrite (EnumerateTrust_loop_unreadable P domain result out pre cert post _ items
             Hpre Hbad) by (simpl; auto).
  simpl. apply Z.eqb_neq in Hbad. rewrite Hbad. simpl.
  rewrite lookup_insert_eq. f_equal. apply memory_eq; simpl; try reflexivity.
  rewrite <- app_assoc. reflexivity.
Qed.

(** What [enumerated] leaves in the memory. *)
Lemma enumerated_status P domain result out items m :
  osStatusOut (enumerated P domain result out items m) = noErr.
Proof. unfold enumerated. destruct (items ++ _); reflexivity. Qed.

Lemma enumerated_calls P domain result out items m :
  storeCalls (enumerated P domain result out items m)
  = storeCalls m ++ domain_calls P domain.
Proof. unfold enumerated. destruct (items ++ _); reflexivity. Qed.

Lemma enumerated_allocations P domain result out items m :
  allocations (enumerated P domain result out items m) = allocations m.
Proof. unfold enumerated. destruct (items ++ _); reflexivity. Qed.

Lemma enumerated_nonempty P domain result out items m :
  certsOut m = Some out → items ++ domain_matches P domain result ≠ [] →
  certsOut (enumerated P domain result out items m) = Some out ∧
  arrays (enumerated P domain result out items m)
  = <[out := items ++ domain_matches P domain result]> (arrays m).
Proof.
  intros Hout Hne. unfold enumerated.
  destruct (items ++ domain_matches P domain result) eqn:Hall; [contradiction|].
  split; [exact Hout|]. simpl. rewrite Hall. reflexivity.
Qed.

Lemma enumerated_empty P domain result out items m :
  items ++ domain_matches P domain result = [] →
  certsOut (enumerated P domain result out items m) = None ∧
  arrays (enumerated P domain result out items m) = delete out (arrays m).
Proof.
  intros Hnil. unfold enumerated. rewrite Hnil. simpl.
  split; [reflexivity | apply delete_insert_eq].
Qed.

Lemma enumerated_collection P domain result out items m :
  certsOut m = Some out →
  collection (enumerated P domain result out items m)
  = items ++ domain_matches P domain result.
Proof.
  intros Hout. destruct (items ++ domain_matches P domain result) as [|x l] eqn:Hall.
  - unfold collection. rewrite (proj1 (enumerated_empty P domain result out items m Hall)).
    reflexivity.
  - assert (Hne : items ++ domain_matches P domain result ≠ []) by (rewrite Hall; discriminate).
    destruct (enumerated_nonempty P domain result out items m Hout Hne) as [Hc Ha].
    unfold collection. rewrite Hc, Ha, lookup_insert_eq. simpl. exact Hall.
Qed.

Lemma enumerated_presented P domain result out items m :
  certsOut m = Some out → presented (enumerated P domain result out items m).
Proof.
  intros Hout. destruct (items ++ domain_matches P domain result) as [|x l] eqn:Hall.
  - unfold presented. rewrite (proj1 (enumerated_empty P domain result out items m Hall)).
    exact I.
  - assert (Hne : items ++ domain_matches P domain result ≠ []) by (rewrite Hall; discriminate).
    destruct (enumerated_nonempty P domain result out items m Hout Hne) as [Hc Ha].
    unfold presented. rewrite Hc, Ha, lookup_insert_eq, Hall. eauto.
Qed.

Lemma fresh_array_unused m : arrays m !! fresh_array m = None.
Proof. apply not_elem_of_dom. unfold fresh_array. apply is_fresh. Qed.

(** A successful enumeration, from either way of getting an array. *)
Lemma EnumerateTrust_ready_succeeds P domain result m :
  domain_succeeds P domain → accumulator_ready P m →
  EnumerateTrust P domain result caller_cell caller_cell m =
  Done 1 match certsOut m with
         | Some out => enumerated P domain result out (collection m) m
         | None => enumerated P domain result (fresh_array m) [] (created m)
         end.
Proof.
  intros Hstore Hready. unfold accumulator_ready, collection in *.
  destruct (certsOut m) as [out|] eqn:Hout.
  - destruct Hready as [items Hlive]. rewrite Hlive. simpl.
    apply EnumerateTrust_succeeds; assumption.
  - rewrite (EnumerateTrust_created P domain result m Hout Hready).
    apply EnumerateTrust_succeeds; [assumption | reflexivity |].
    simpl. apply lookup_insert_eq.
Qed.

(** A failed enumeration into a live array: failure is returned with the
    store's code, the array is released and the collection cell nulled. *)
Lemma EnumerateTrust_fails P domain result m out items status :
  domain_fails P domain status →
  certsOut m = Some out → arrays m !! out = Some items →
  ∃ m', EnumerateTrust P domain result caller_cell caller_cell m = Done 0 m' ∧
        certsOut m' = None ∧ osStatusOut m' = status ∧
        arrays m' = delete out (arrays m) ∧ allocations m' = allocations m ∧
        ∃ calls, storeCalls m' = storeCalls m ++ CopyCertificates domain :: calls.
Proof.
  intros Hfail Hout Hlive.
  destruct Hfail as [status left Hstore Hne1 Hne2 | pre cert post status Hstore Hpre Hst Hne].
  - eexists. split.
    { eapply EnumerateTrust_listing_fails; eassumption. }
    simpl. repeat split. exists []. reflexivity.
  - subst status. eexists. split.
    { eapply EnumerateTrust_reading_fails; eassumption. }
    simpl. repeat split.
    + apply delete_insert_eq.
    + eexists. reflexivity.
Qed.

(** Every store that keeps the listing contract either lets a domain be
    enumerated or makes its enumeration fail. *)
Lemma readable_dec P domain obj : {readable P domain obj} + {¬ readable P domain obj}.
Proof. destruct obj; simpl; try (left; exact I). apply Z.eq_dec. Qed.

Lemma readable_split P domain objs :
  Forall (readable P domain) objs ∨
  ∃ pre cert post, objs = pre ++ SecCertificate cert :: post ∧
                   Forall (readable P domain) pre ∧
                   fst (SecTrustSettingsCopyTrustSettings P cert domain) ≠ noErr.
Proof.
  induction objs as [|obj objs IH]; [left; constructor|].
  destruct (readable_dec P domain obj) as [Hobj | Hobj].
  - destruct IH as [Hall | (pre & cert & post & -> & Hpre & Hbad)].
    + left. constructor; assumption.
    + right. exists (obj :: pre), cert, post. repeat split; [constructor|]; assumption.
  - right. destruct obj; simpl in Hobj; try (destruct Hobj; exact I).
    exists [], cert, objs. repeat split; [constructor | exact Hobj].
Qed.

Lemma domain_succeeds_or_fails P domain :
  listing_contract P →
  domain_succeeds P domain ∨ ∃ status, domain_fails P domain status.
Proof.
  intros Hcontract. specialize (Hcontract domain).
  destruct (SecTrustSettingsCopyCertificates P domain) as [status left] eqn:Hstore.
  simpl in Hcontract.
  destruct (decide (status = noErr)) as [-> | Hne1].
  - destruct (Hcontract eq_refl) as [objs ->].
    destruct (readable_split P domain objs) as [Hall | (pre & cert & post & -> & Hpre & Hbad)].
    + left. right. unfold domain_succeeds. rewrite Hstore. eauto.
    + right. eexists. eapply fails_reading; eauto.
  - destruct (decide (status = errSecNoTrustSettings)) as [-> | Hne2].
    + left. left. rewrite Hstore. reflexivity.
    + right. exists status. eapply fails_listing; eauto.
Qed.

Lemma ready_collection P m out :
  accumulator_ready P m → certsOut m = Some out →
  arrays m !! out = Some (collection m).
Proof.
  unfold accumulator_ready, collection. intros Hready Hout. rewrite Hout in *.
  destruct Hready as [items ->]. reflexivity.
Qed.

(** A successful enumeration of a domain with no match leaves the match
    set as it was; what the caller can observe is fixed by the memory
    before the call. *)
Lemma EnumerateTrust_contributes_nothing P domain result m :
  domain_succeeds P domain → domain_matches P domain result = [] →
  accumulator_ready P m →
  ∃ m', EnumerateTrust P domain result caller_cell caller_cell m = Done 1 m' ∧
        osStatusOut m' = noErr ∧
        collection m' = collection m ∧
        storeCalls m' = storeCalls m ++ domain_calls P domain ∧
        certsOut m' = match collection m with [] => None | _ :: _ => certsOut m end ∧
        arrays m' = match certsOut m, collection m with
                    | Some out, [] => delete out (arrays m)
                    | _, _ => arrays m
                    end.
Proof.
  intros Hstore Hnone Hready.
  eexists. split; [apply EnumerateTrust_ready_succeeds; assumption|].
  destruct (certsOut m) as [out|] eqn:Hout.
  - pose proof (ready_collection P m out Hready Hout) as Hlive.
    split; [apply enumerated_status|].
    split; [rewrite enumerated_collection, Hnone by exact Hout; apply app_nil_r|].
    split; [apply enumerated_calls|].
    destruct (collection m) as [|item items] eqn:Hitems.
    + apply enumerated_empty. rewrite Hnone. reflexivity.
    + destruct (enumerated_nonempty P domain result out (item :: items) m Hout) as [Hc Ha].
      { discriminate. }
      rewrite Hc, Ha, Hnone, app_nil_r. split; [reflexivity|].
      apply insert_id. exact Hlive.
  - assert (Hcoll : collection m = []) by (unfold collection; rewrite Hout; reflexivity).
    rewrite Hcoll.
    split; [apply enumerated_status|].
    split; [rewrite enumerated_collection, Hnone by reflexivity; reflexivity|].
    split; [rewrite enumerated_calls; reflexivity|].
    destruct (enumerated_empty P domain result (fresh_array m) [] (created m)) as [Hc Ha].
    { rewrite Hnone. reflexivity. }
    rewrite Hc, Ha. split; [reflexivity|].
    simpl. apply delete_insert_id, fresh_array_unused.
Qed.

(** C7. When the store reports that the domain has no trust settings, the
    enumeration is a success: it returns 1, the status cell holds the
    success code, and the match set is what it was.  Nothing tells the
    case apart from another successful enumeration that contributed
    nothing: return value, status, collection cell and arrays are the
    same. *)
Theorem no_settings_in_domain_is_success P domain result m :
  fst (SecTrustSettingsCopyCertificates P domain) = errSecNoTrustSettings →
  accumulator_ready P m →
  ∃ m', EnumerateTrust P domain result caller_cell caller_cell m = Done 1 m' ∧
        osStatusOut m' = noErr ∧
        collection m' = collection m ∧
        storeCalls m' = storeCalls m ++ [CopyCertificates domain] ∧
        (collection m ≠ [] → certsOut m' = certsOut m ∧ arrays m' = arrays m) ∧
        (certsOut m = None → certsOut m' = None ∧ arrays m' = arrays m) ∧
        ∀ P', CFArrayCreateMutable_succeeds P' (allocations m)
                = CFArrayCreateMutable_succeeds P (allocations m) →
              domain_succeeds P' domain → domain_matches P' domain result = [] →
              ∃ m'', EnumerateTrust P' domain result caller_cell caller_cell m = Done 1 m'' ∧
                     osStatusOut m'' = osStatusOut m' ∧ certsOut m'' = certsOut m' ∧
                     arrays m'' = arrays m' ∧ collection m'' = collection m'.
Proof.
  intros Hnone Hready.
  assert (Hstore : domain_succeeds P domain) by (left; exact Hnone).
  assert (Hmatches : domain_matches P domain result = []).
  { unfold domain_matches.
    destruct (SecTrustSettingsCopyCertificates P domain) as [status [objs|]];
      simpl in Hnone; subst; reflexivity. }
  assert (Hcalls : domain_calls P domain = [CopyCertificates domain]).
  { unfold domain_calls.
    destruct (SecTrustSettingsCopyCertificates P domain) as [status [objs|]];
      simpl in Hnone; subst; reflexivity. }
  destruct (EnumerateTrust_contributes_nothing P domain result m Hstore Hmatches Hready)
    as (m' & Hrun & Hst & Hcoll & Htrace & Hcell & Harr).
  exists m'. split; [exact Hrun|]. split; [exact Hst|]. split; [exact Hcoll|].
  split; [rewrite Htrace, Hcalls; reflexivity|].
  split; [|split].
  - intros Hne. rewrite Hcell, Harr.
    destruct (collection m); [contradiction|]. destruct (certsOut m); auto.
  - intros Hcert. rewrite Hcell, Harr, Hcert. destruct (collection m); auto.
  - intros P' Halloc Hstore' Hmatches'.
    assert (Hready' : accumulator_ready P' m).
    { unfold accumulator_ready in *. destruct (certsOut m); [exact Hready|].
      rewrite Halloc. exact Hready. }
    destruct (EnumerateTrust_contributes_nothing P' domain result m Hstore' Hmatches' Hready')
      as (m'' & Hrun' & Hst' & Hcoll' & _ & Hcell' & Harr').
    exists m''. split; [exact Hrun'|].
    rewrite Hst, Hst', Hcell, Hcell', Harr, Harr', Hcoll, Hcoll'. auto.
Qed.

(** C8. When the store fails on the settings of one listed certificate,
    the enumeration stops there: it returns failure with the store's code
    in the status cell, the settings of each certificate up to the failing
    one have been queried once and no certificate after it has been, and
    inside the loop only matches that come before the failing certificate
    have been appended. *)
Theorem evaluator_error_aborts_enumeration P domain result m pre cert post status :
  SecTrustSettingsCopyCertificates P domain
    = (noErr, Some (pre ++ SecCertificate cert :: post)) →
  Forall (readable P domain) pre →
  fst (SecTrustSettingsCopyTrustSettings P cert domain) = status →
  status ≠ noErr →
  accumulator_ready P m →
  (∃ m', EnumerateTrust P domain result caller_cell caller_cell m = Done 0 m' ∧
         osStatusOut m' = status ∧ certsOut m' = None ∧
         storeCalls m' = storeCalls m ++ CopyCertificates domain ::
                           settings_calls domain pre ++ [CopyTrustSettings cert domain]) ∧
  (∀ out items m0,
     arrays m0 !! out = Some items → osStatusOut m0 = noErr →
     ∃ m1, EnumerateTrust_loop P domain result out caller_cell
             (pre ++ SecCertificate cert :: post) m0 = Done tt m1 ∧
           arrays m1 !! out = Some (items ++ matching P domain result pre) ∧
           osStatusOut m1 = status ∧
           storeCalls m1 = storeCalls m0 ++ settings_calls domain pre
                             ++ [CopyTrustSettings cert domain]).
Proof.
  intros Hstore Hpre Hst Hne Hready. subst status. split.
  - unfold accumulator_ready in Hready.
    destruct (certsOut m) as [out|] eqn:Hout.
    + destruct Hready as [items Hlive]. eexists. split.
      { eapply EnumerateTrust_reading_fails; eassumption. }
      repeat split.
    + rewrite (EnumerateTrust_created P domain result m Hout Hready).
      eexists. split.
      { eapply EnumerateTrust_reading_fails; try eassumption; [reflexivity|].
        simpl. apply lookup_insert_eq. }
      repeat split.
  - intros out items m0 Hlive Hst0. eexists. split.
    { apply EnumerateTrust_loop_unreadable; eassumption. }
    simpl. split; [apply lookup_insert_eq|]. split; reflexivity.
Qed.

(** * The exported operations *)

(** C9. Every exported operation called with an absent collection pointer
    or an absent status pointer returns the invalid-argument indicator
    (-1) without any store access and with nothing done in part: no array
    is created or changed and no match set is produced.  The cell whose
    pointer is present is left as the entry code of every call leaves it,
    null for the collection and success for the status. *)
Theorem invalid_arguments_short_circuit P op pCertsOut pOSStatusOut m :
  pCertsOut = nullptr ∨ pOSStatusOut = nullptr →
  ∃ m', run P op pCertsOut pOSStatusOut m = Done (-1) m' ∧
        storeCalls m' = storeCalls m ∧
        arrays m' = arrays m ∧
        allocations m' = allocations m ∧
        certsOut m' = (if is_null pCertsOut then certsOut m else None) ∧
        osStatusOut m' = (if is_null pOSStatusOut then osStatusOut m else noErr).
Proof.
  intros Habsent.
  destruct op, pCertsOut, pOSStatusOut;
    try (destruct Habsent; discriminate);
    (eexists; split; [reflexivity|]; simpl; auto).
Qed.

Lemma run_user_scope P op m :
  machine_scope op = false →
  run P op caller_cell caller_cell m =
  EnumerateTrust P kSecTrustSettingsDomainUser (desired_outcome op)
    caller_cell caller_cell (set_certsOut None m).
Proof. destruct op; intros [=]; reflexivity. Qed.

Lemma run_machine_scope P op m :
  machine_scope op = true →
  run P op caller_cell caller_cell m =
  match EnumerateTrust P kSecTrustSettingsDomainAdmin (desired_outcome op)
          caller_cell caller_cell (set_certsOut None m) with
  | Done ret m1 =>
      if ret =? 1 then
        EnumerateTrust P kSecTrustSettingsDomainSystem (desired_outcome op)
          caller_cell caller_cell m1
      else Done ret m1
  | Crash => Crash
  end.
Proof.
  destruct op; intros [=]; simpl;
    unfold AppleCryptoNative_StoreEnumerateMachineRoot,
      AppleCryptoNative_StoreEnumerateMachineDisallowed, mbind, M_bind; simpl;
    (destruct (EnumerateTrust P kSecTrustSettingsDomainAdmin _ caller_cell caller_cell
                 (set_certsOut None m)) as [ret m1|]; [|reflexivity]);
    destruct (ret =? 1); reflexivity.
Qed.

Lemma presented_usable m : presented m → usable m.
Proof.
  unfold presented, usable. destruct (certsOut m); [|auto].
  intros (item & items & ->). eauto.
Qed.

(** With a store that keeps the listing contract, an enumeration handed a
    usable collection cell returns, with 0 or 1; on 0 the cell is null,
    and in any case the cell is null or holds a live array that is not
    empty. *)
Lemma EnumerateTrust_returns P domain result m :
  listing_contract P → usable m →
  ∃ ret m', EnumerateTrust P domain result caller_cell caller_cell m = Done ret m' ∧
            (ret = 0 ∨ ret = 1) ∧ (ret = 0 → certsOut m' = None) ∧ presented m'.
Proof.
  intros Hcontract Husable.
  assert (Hlive : ∀ m0 out items,
            certsOut m0 = Some out → arrays m0 !! out = Some items →
            ∃ ret m', EnumerateTrust P domain result caller_cell caller_cell m0 = Done ret m' ∧
                      (ret = 0 ∨ ret = 1) ∧ (ret = 0 → certsOut m' = None) ∧ presented m').
  { intros m0 out items Hout Hitems.
    destruct (domain_succeeds_or_fails P domain Hcontract) as [Hok | [status Hfail]].
    - exists 1, (enumerated P domain result out items m0).
      split; [apply EnumerateTrust_succeeds; assumption|].
      split; [right; reflexivity|]. split; [discriminate|].
      apply enumerated_presented. exact Hout.
    - destruct (EnumerateTrust_fails P domain result m0 out items status Hfail Hout Hitems)
        as (m' & Hrun & Hcell & _).
      exists 0, m'. split; [exact Hrun|]. split; [left; reflexivity|].
      split; [intros _; exact Hcell|]. unfold presented. rewrite Hcell. exact I. }
  unfold usable in Husable. destruct (certsOut m) as [out|] eqn:Hout.
  - destruct Husable as [items Hitems]. eapply Hlive; eassumption.
  - destruct (CFArrayCreateMutable_succeeds P (allocations m)) eqn:Halloc.
    + rewrite (EnumerateTrust_created P domain result m Hout Halloc).
      apply (Hlive (created m) (fresh_array m) []); [reflexivity|].
      simpl. apply lookup_insert_eq.
    + rewrite (EnumerateTrust_allocation_fails P domain result m Hout Halloc).
      exists 0. eexists. split; [reflexivity|]. split; [left; reflexivity|].
      split; [intros _; exact Hout|]. unfold presented. simpl. rewrite Hout. exact I.
Qed.

(** A successful enumeration appends the domain's matches, in store
    order, after what the match set already held. *)
Lemma EnumerateTrust_appends P domain result m :
  domain_succeeds P domain → accumulator_ready P m →
  ∃ m', EnumerateTrust P domain result caller_cell caller_cell m = Done 1 m' ∧
        osStatusOut m' = noErr ∧
        collection m' = collection m ++ domain_matches P domain result ∧
        storeCalls m' = storeCalls m ++ domain_calls P domain ∧
        presented m' ∧
        allocations m' = match certsOut m with
                         | Some _ => allocations m
                         | None => S (allocations m)
                         end ∧
        (collection m ++ domain_matches P domain result ≠ [] →
         certsOut m' = Some (default (fresh_array m) (certsOut m))).
Proof.
  intros Hstore Hready.
  eexists. split; [apply EnumerateTrust_ready_succeeds; assumption|].
  destruct (certsOut m) as [out|] eqn:Hout.
  - split; [apply enumerated_status|].
    split; [apply enumerated_collection; exact Hout|].
    split; [apply enumerated_calls|].
    split; [apply enumerated_presented; exact Hout|].
    split; [apply enumerated_allocations|].
    intros Hne. apply enumerated_nonempty; assumption.
  - assert (Hcoll : collection m = []) by (unfold collection; rewrite Hout; reflexivity).
    rewrite Hcoll.
    split; [apply enumerated_status|].
    split; [apply enumerated_collection; reflexivity|].
    split; [rewrite enumerated_calls; reflexivity|].
    split; [apply enumerated_presented; reflexivity|].
    split; [rewrite enumerated_allocations; reflexivity|].
    intros Hne. apply enumerated_nonempty; [reflexivity | exact Hne].
Qed.

(** C6. A machine-scope operation enumerates the Admin domain and then the
    System domain into one match set: when both enumerations succeed it
    returns 1 and the collection is the Admin matches in store order
    followed by the System matches in store order, nothing reordered and
    nothing removed; the store is queried for Admin first; and when Admin
    has a match, the array created for Admin is the one returned, no
    second array having been created. *)
Theorem machine_matches_in_domain_order P op m :
  machine_scope op = true →
  (∀ k, CFArrayCreateMutable_succeeds P k = true) →
  domain_succeeds P kSecTrustSettingsDomainAdmin →
  domain_succeeds P kSecTrustSettingsDomainSystem →
  ∃ m', run P op caller_cell caller_cell m = Done 1 m' ∧
        collection m'
        = domain_matches P kSecTrustSettingsDomainAdmin (desired_outcome op)
          ++ domain_matches P kSecTrustSettingsDomainSystem (desired_outcome op) ∧
        storeCalls m'
        = storeCalls m ++ domain_calls P kSecTrustSettingsDomainAdmin
          ++ domain_calls P kSecTrustSettingsDomainSystem ∧
        osStatusOut m' = noErr ∧
        (domain_matches P kSecTrustSettingsDomainAdmin (desired_outcome op) ≠ [] →
         certsOut m' = Some (fresh_array m) ∧ allocations m' = S (allocations m)).
Proof.
  intros Hop Halloc Hadmin Hsystem.
  rewrite (run_machine_scope P op m Hop).
  destruct (EnumerateTrust_appends P kSecTrustSettingsDomainAdmin (desired_outcome op)
              (set_certsOut None m) Hadmin (Halloc _))
    as (m1 & Hrun1 & _ & Hcoll1 & Hcalls1 & Hpres1 & Hallocs1 & Hcell1).
  rewrite Hrun1. change (1 =? 1) with true. cbn iota.
  assert (Hready1 : accumulator_ready P m1).
  { unfold accumulator_ready. unfold presented in Hpres1.
    destruct (certsOut m1); [|apply Halloc].
    destruct Hpres1 as (item & items & ->). eauto. }
  destruct (EnumerateTrust_appends P kSecTrustSettingsDomainSystem (desired_outcome op)
              m1 Hsystem Hready1)
    as (m2 & Hrun2 & Hst2 & Hcoll2 & Hcalls2 & _ & Hallocs2 & Hcell2).
  simpl in Hcoll1, Hcalls1, Hallocs1, Hcell1.
  exists m2. split; [exact Hrun2|].
  split; [rewrite Hcoll2, Hcoll1; reflexivity|].
  split; [rewrite Hcalls2, Hcalls1, <- app_assoc; reflexivity|].
  split; [exact Hst2|].
  intros Hne. specialize (Hcell1 Hne).
  rewrite Hcell1 in Hallocs2, Hcell2. simpl in Hcell2.
  split.
  - apply Hcell2. rewrite Hcoll1. simpl.
    destruct (domain_matches P kSecTrustSettingsDomainAdmin (desired_outcome op));
      [contradiction | discriminate].
  - rewrite Hallocs2. exact Hallocs1.
Qed.

(** C4. A machine-scope operation is all-or-nothing: when the Admin
    enumeration succeeds with matches and the System enumeration then
    fails, the operation returns failure (0) with the store's code in the
    status cell, the collection cell is null and the array that held the
    Admin matches has been released: of the arrays nothing remains but
    what was there before the call. *)
Theorem machine_fail_fast P op m status :
  machine_scope op = true →
  CFArrayCreateMutable_succeeds P (allocations m) = true →
  domain_succeeds P kSecTrustSettingsDomainAdmin →
  domain_matches P kSecTrustSettingsDomainAdmin (desired_outcome op) ≠ [] →
  domain_fails P kSecTrustSettingsDomainSystem status →
  (∃ m1, EnumerateTrust P kSecTrustSettingsDomainAdmin (desired_outcome op)
           caller_cell caller_cell (set_certsOut None m) = Done 1 m1 ∧
         collection m1 = domain_matches P kSecTrustSettingsDomainAdmin (desired_outcome op)) ∧
  ∃ m', run P op caller_cell caller_cell m = Done 0 m' ∧
        certsOut m' = None ∧ collection m' = [] ∧
        osStatusOut m' = status ∧ arrays m' = arrays m.
Proof.
  intros Hop Halloc Hadmin Hfound Hsystem.
  set (result := desired_outcome op) in *.
  set (out := fresh_array m).
  set (m1 := enumerated P kSecTrustSettingsDomainAdmin result out [] (created (set_certsOut None m))).
  assert (Hrun1 : EnumerateTrust P kSecTrustSettingsDomainAdmin result
                    caller_cell caller_cell (set_certsOut None m) = Done 1 m1).
  { apply (EnumerateTrust_ready_succeeds P kSecTrustSettingsDomainAdmin result
             (set_certsOut None m) Hadmin Halloc). }
  assert (Hcoll1 : collection m1 = domain_matches P kSecTrustSettingsDomainAdmin result).
  { apply (enumerated_collection P kSecTrustSettingsDomainAdmin result out []). reflexivity. }
  split; [exists m1; split; assumption|].
  destruct (enumerated_nonempty P kSecTrustSettingsDomainAdmin result out []
              (created (set_certsOut None m)) eq_refl Hfound) as [Hcell1 Harr1].
  fold m1 in Hcell1, Harr1.
  assert (Hlive1 : arrays m1 !! out
                   = Some ([] ++ domain_matches P kSecTrustSettingsDomainAdmin result)).
  { rewrite Harr1. apply lookup_insert_eq. }
  destruct (EnumerateTrust_fails P kSecTrustSettingsDomainSystem result m1 out _ status
              Hsystem Hcell1 Hlive1)
    as (m' & Hrun2 & Hcell2 & Hst2 & Harr2 & _).
  exists m'. rewrite (run_machine_scope P op m Hop). fold result. rewrite Hrun1.
  change (1 =? 1) with true. cbn iota.
  split; [exact Hrun2|]. split; [exact Hcell2|].
  split; [unfold collection; rewrite Hcell2; reflexivity|].
  split; [exact Hst2|].
  rewrite Harr2, Harr1. simpl. rewrite delete_insert_eq.
  apply delete_insert_id. exact (fresh_array_unused m).
Qed.

(** C5. With a store that keeps the listing contract, every exported
    operation handed a collection pointer returns, and what it leaves in
    the collection cell is either null or a live array that is not empty:
    a return value other than success comes with a null cell, and so does
    a match set that ends empty.  An empty success and a failure leave
    the same null cell and the same arrays, so only the return value and
    the status tell them apart. *)
Theorem absent_collection_on_failure_or_empty P op pOSStatusOut m :
  listing_contract P →
  (∃ ret m', run P op caller_cell pOSStatusOut m = Done ret m' ∧
             (ret ≠ 1 → certsOut m' = None) ∧
             (collection m' = [] → certsOut m' = None) ∧
             (∀ out, certsOut m' = Some out →
                     ret = 1 ∧ ∃ item items, arrays m' !! out = Some (item :: items))) ∧
  (∃ m1 m2,
     run (uniform_store (errSecNoTrustSettings, None)) op caller_cell caller_cell m
       = Done 1 m1 ∧
     run (uniform_store (errSecNotAvailable, None)) op caller_cell caller_cell m
       = Done 0 m2 ∧
     certsOut m1 = None ∧ certsOut m2 = None ∧ arrays m1 = arrays m2).
Proof.
  intros Hcontract. split.
  - assert (Hgoal : ∃ ret m', run P op caller_cell pOSStatusOut m = Done ret m' ∧
                              (ret = 1 ∨ certsOut m' = None) ∧ presented m').
    { destruct pOSStatusOut.
      - exists (-1), (set_certsOut None m).
        split; [destruct op; reflexivity|]. split; [right; reflexivity | exact I].
      - destruct (machine_scope op) eqn:Hop.
        + rewrite (run_machine_scope P op m Hop).
          destruct (EnumerateTrust_returns P kSecTrustSettingsDomainAdmin
                      (desired_outcome op) (set_certsOut None m) Hcontract I)
            as (ret1 & m1 & -> & [-> | ->] & Hzero1 & Hpres1).
          * exists 0, m1. split; [reflexivity|]. split; [right; auto | exact Hpres1].
          * change (1 =? 1) with true. cbn iota.
            destruct (EnumerateTrust_returns P kSecTrustSettingsDomainSystem
                        (desired_outcome op) m1 Hcontract (presented_usable m1 Hpres1))
              as (ret2 & m2 & -> & [-> | ->] & Hzero2 & Hpres2).
            -- exists 0, m2. split; [reflexivity|]. split; [right; auto | exact Hpres2].
            -- exists 1, m2. split; [reflexivity|]. split; [left; reflexivity | exact Hpres2].
        + rewrite (run_user_scope P op m Hop).
          destruct (EnumerateTrust_returns P kSecTrustSettingsDomainUser
                      (desired_outcome op) (set_certsOut None m) Hcontract I)
            as (ret1 & m1 & -> & [-> | ->] & Hzero1 & Hpres1).
          * exists 0, m1. split; [reflexivity|]. split; [right; auto | exact Hpres1].
          * exists 1, m1. split; [reflexivity|]. split; [left; reflexivity | exact Hpres1]. }
    destruct Hgoal as (ret & m' & Hrun & Hret & Hpres).
    exists ret, m'. split; [exact Hrun|]. unfold presented, collection in *.
    split; [|split].
    + intros Hne. destruct Hret; [contradiction | assumption].
    + destruct (certsOut m') as [out|]; [|reflexivity].
      destruct Hpres as (item & items & ->). discriminate.
    + intros out Hout. rewrite Hout in Hpres. split; [|exact Hpres].
      destruct Hret as [Hret | Hnull]; [exact Hret | congruence].
  - set (P1 := uniform_store (errSecNoTrustSettings, None)).
    set (P2 := uniform_store (errSecNotAvailable, None)).
    assert (Hok : ∀ domain, domain_succeeds P1 domain) by (intros domain; left; reflexivity).
    assert (Hnothing : ∀ m0 domain,
              certsOut m0 = None →
              ∃ m', EnumerateTrust P1 domain (desired_outcome op) caller_cell caller_cell m0
                    = Done 1 m' ∧ certsOut m' = None ∧ arrays m' = arrays m0).
    { intros m0 domain Hnull.
      destruct (EnumerateTrust_contributes_nothing P1 domain (desired_outcome op) m0
                  (Hok domain) eq_refl)
        as (m' & Hrun & _ & _ & _ & Hcell & Harr).
      { unfold accumulator_ready. rewrite Hnull. reflexivity. }
      exists m'. split; [exact Hrun|]. rewrite Hcell, Harr. unfold collection.
      rewrite Hnull. auto. }
    assert (Hbad : ∀ domain, domain_fails P2 domain errSecNotAvailable).
    { intros domain. eapply fails_listing; [reflexivity | discriminate | discriminate]. }
    assert (Hfailed : ∀ domain,
              ∃ m', EnumerateTrust P2 domain (desired_outcome op) caller_cell caller_cell
                      (set_certsOut None m) = Done 0 m' ∧
                    certsOut m' = None ∧ arrays m' = arrays m).
    { intros domain.
      rewrite (EnumerateTrust_created P2 domain (desired_outcome op) (set_certsOut None m))
        by reflexivity.
      destruct (EnumerateTrust_fails P2 domain (desired_outcome op)
                  (created (set_certsOut None m)) (fresh_array m) [] errSecNotAvailable
                  (Hbad domain) eq_refl)
        as (m' & Hrun & Hcell & _ & Harr & _).
      { simpl. apply lookup_insert_eq. }
      exists m'. split; [exact Hrun|]. split; [exact Hcell|].
      rewrite Harr. simpl. apply delete_insert_id. exact (fresh_array_unused m). }
    destruct (machine_scope op) eqn:Hop.
    + rewrite !(run_machine_scope _ op m Hop).
      destruct (Hnothing (set_certsOut None m) kSecTrustSettingsDomainAdmin eq_refl)
        as (ma & -> & Hcella & Harra).
      change (1 =? 1) with true. cbn iota.
      destruct (Hnothing ma kSecTrustSettingsDomainSystem Hcella)
        as (m1 & -> & Hcell1 & Harr1).
      destruct (Hfailed kSecTrustSettingsDomainAdmin) as (m2 & -> & Hcell2 & Harr2).
      change (0 =? 1) with false. cbn iota.
      exists m1, m2. repeat split; try assumption.
      rewrite Harr1, Harra, Harr2. reflexivity.
    + rewrite !(run_user_scope _ op m Hop).
      destruct (Hnothing (set_certsOut None m) kSecTrustSettingsDomainUser eq_refl)
        as (m1 & -> & Hcell1 & Harr1).
      destruct (Hfailed kSecTrustSettingsDomainUser) as (m2 & -> & Hcell2 & Harr2).
      exists m1, m2. repeat split; try assumption.
      rewrite Harr1, Harr2. reflexivity.
Qed.

(** * The statements at sample inputs *)

Lemma no_settings_in_domain_is_success_witness :
  ∃ m', EnumerateTrust (sample_store (errSecNoTrustSettings, None) (noErr, None))
          kSecTrustSettingsDomainUser kSecTrustSettingsResultTrustRoot
          caller_cell caller_cell sample_memory_collecting = Done 1 m' ∧
        osStatusOut m' = noErr ∧
        collection m' = [SecCertificate 1%positive].
Proof.
  destruct (no_settings_in_domain_is_success
              (sample_store (errSecNoTrustSettings, None) (noErr, None))
              kSecTrustSettingsDomainUser kSecTrustSettingsResultTrustRoot
              sample_memory_collecting)
    as (m' & Hrun & Hst & Hcoll & _).
  - reflexivity.
  - exists [SecCertificate 1%positive]. reflexivity.
  - exists m'. split; [exact Hrun|]. split; [exact Hst | exact Hcoll].
Defined.

Lemma evaluator_error_aborts_enumeration_witness :
  ∃ m', EnumerateTrust
          (sample_store
             (noErr, Some [SecCertificate 1%positive; SecCertificate 5%positive;
                           SecCertificate 6%positive])
             (noErr, None))
          kSecTrustSettingsDomainUser kSecTrustSettingsResultTrustRoot
          caller_cell caller_cell (set_certsOut None sample_memory) = Done 0 m' ∧
        osStatusOut m' = errSecNotAvailable ∧ certsOut m' = None ∧
        storeCalls m' = [CopyCertificates kSecTrustSettingsDomainUser;
                         CopyTrustSettings 1%positive kSecTrustSettingsDomainUser;
                         CopyTrustSettings 5%positive kSecTrustSettingsDomainUser].
Proof.
  refine (proj1 (evaluator_error_aborts_enumeration
           (sample_store
              (noErr, Some [SecCertificate 1%positive; SecCertificate 5%positive;
                            SecCertificate 6%positive])
              (noErr, None))
           kSecTrustSettingsDomainUser kSecTrustSettingsResultTrustRoot
           (set_certsOut None sample_memory)
           [SecCertificate 1%positive] 5%positive [SecCertificate 6%positive]
           errSecNotAvailable _ _ _ _ _)).
  - reflexivity.
  - repeat constructor.
  - reflexivity.
  - discriminate.
  - reflexivity.
Defined.

Lemma invalid_arguments_short_circuit_witness :
  ∃ m', run (sample_store (noErr, None) (noErr, None)) EnumerateMachineRoots
          caller_cell nullptr sample_memory = Done (-1) m' ∧
        storeCalls m' = [] ∧ arrays m' = ∅ ∧ allocations m' = 0%nat ∧
        certsOut m' = None ∧ osStatusOut m' = 99.
Proof.
  apply (invalid_arguments_short_circuit (sample_store (noErr, None) (noErr, None))
           EnumerateMachineRoots caller_cell nullptr sample_memory).
  right. reflexivity.
Defined.

Lemma machine_matches_in_domain_order_witness :
  ∃ m', run (sample_store (errSecNoTrustSettings, None)
               (noErr, Some [SecCertificate 1%positive; SecCertificate 6%positive]))
          EnumerateMachineRoots caller_cell caller_cell sample_memory = Done 1 m' ∧
        collection m' = [SecCertificate 1%positive; SecCertificate 1%positive;
                         SecCertificate 6%positive].
Proof.
  destruct (machine_matches_in_domain_order
              (sample_store (errSecNoTrustSettings, None)
                 (noErr, Some [SecCertificate 1%positive; SecCertificate 6%positive]))
              EnumerateMachineRoots sample_memory)
    as (m' & Hrun & Hcoll & _).
  - reflexivity.
  - intros k. reflexivity.
  - right. eexists. split; [reflexivity|]. repeat constructor.
  - right. eexists. split; [reflexivity|]. repeat constructor.
  - exists m'. split; [exact Hrun | exact Hcoll].
Defined.

Lemma machine_fail_fast_witness :
  ∃ m', run (sample_store (noErr, None)
               (noErr, Some [SecCertificate 6%positive; SecCertificate 5%positive]))
          EnumerateMachineRoots caller_cell caller_cell sample_memory = Done 0 m' ∧
        certsOut m' = None ∧ collection m' = [] ∧
        osStatusOut m' = errSecNotAvailable ∧ arrays m' = ∅.
Proof.
  refine (proj2 (machine_fail_fast
           (sample_store (noErr, None)
              (noErr, Some [SecCertificate 6%positive; SecCertificate 5%positive]))
           EnumerateMachineRoots sample_memory errSecNotAvailable _ _ _ _ _)).
  - reflexivity.
  - reflexivity.
  - right. eexists. split; [reflexivity|]. repeat constructor.
  - vm_compute. discriminate.
  - apply (fails_reading _ _ [SecCertificate 6%positive] 5%positive []).
    + reflexivity.
    + repeat constructor.
    + reflexivity.
    + discriminate.
Defined.

Lemma absent_collection_on_failure_or_empty_witness :
  ∃ ret m', run (sample_store (errSecNoTrustSettings, None) (errSecNotAvailable, None))
              EnumerateUserDisallowed caller_cell caller_cell sample_memory
            = Done ret m' ∧
            (ret ≠ 1 → certsOut m' = None) ∧
            (collection m' = [] → certsOut m' = None) ∧
            (∀ out, certsOut m' = Some out →
                    ret = 1 ∧ ∃ item items, arrays m' !! out = Some (item :: items)).
Proof.
  refine (proj1 (absent_collection_on_failure_or_empty
           (sample_store (errSecNoTrustSettings, None) (errSecNotAvailable, None))
           EnumerateUserDisallowed caller_cell sample_memory _)).
  intros domain. destruct domain; simpl; intros Hst;
    [discriminate Hst | eauto | discriminate Hst].
Defined.

(** * Further properties of the evaluator *)

(** When the store fails on the settings query, the evaluator reports no
    match for every desired outcome and leaves the store's code in the
    status cell, whatever array the store left behind (lines 13-16). *)
Theorem store_failure_is_no_match P cert domain desired m status settings :
  SecTrustSettingsCopyTrustSettings P cert domain = (status, settings) →
  status ≠ noErr →
  Evaluate P cert domain desired m = Some (false, status).
Proof.
  intros Hstore Hne%Z.eqb_neq. rewrite Evaluate_run, Hstore.
  unfold isMatch_of. simpl. destruct settings; [rewrite Hne|]; reflexivity.
Qed.

Lemma store_failure_is_no_match_witness :
  Evaluate (settings_store (errSecNotAvailable, Some [])) 1%positive
    kSecTrustSettingsDomainUser kSecTrustSettingsResultTrustRoot sample_memory
  = Some (false, errSecNotAvailable).
Proof.
  apply (store_failure_is_no_match (settings_store (errSecNotAvailable, Some []))
           1%positive kSecTrustSettingsDomainUser kSecTrustSettingsResultTrustRoot
           sample_memory errSecNotAvailable (Some [])).
  - reflexivity.
  - discriminate.
Defined.

Lemma CheckTrustMatch_scan_undecided result settings :
  Forall (λ o, CheckTrustMatch_record o = None) settings →
  CheckTrustMatch_scan result settings = false.
Proof.
  intros Hall. rewrite <- (app_nil_r settings).
  rewrite CheckTrustMatch_scan_skip by exact Hall. reflexivity.
Qed.

(** A settings array that is not empty and holds no deciding record (only
    objects that are no dictionaries, dictionaries with several keys or
    without the reserved key, values that are no 32-bit numbers) gives no
    match for any desired outcome, TrustRoot included (lines 14, 32-68). *)
Theorem undecided_settings_never_match P cert domain desired m item items :
  SecTrustSettingsCopyTrustSettings P cert domain = (noErr, Some (item :: items)) →
  Forall (λ o, ∀ k, ¬ applicable o k) (item :: items) →
  Evaluate P cert domain desired m = Some (false, noErr).
Proof.
  intros Hstore Hall. rewrite Evaluate_run, Hstore. unfold isMatch_of.
  change (noErr =? noErr) with true. cbn iota.
  rewrite CheckTrustMatch_scan_undecided; [reflexivity|].
  eapply Forall_impl; [exact Hall|]. intros o Ho.
  apply CheckTrustMatch_record_None, Ho.
Qed.

Lemma constrained_record_not_applicable outcome k :
  ¬ applicable (constrained_record outcome) k.
Proof.
  apply CheckTrustMatch_record_None. apply CheckTrustMatch_record_multi_key.
  vm_compute. lia.
Qed.

Lemma undecided_settings_never_match_witness :
  Evaluate
    (settings_store
       (noErr, Some [constrained_record kSecTrustSettingsResultTrustRoot;
                     CFString "not a record"]))
    1%positive kSecTrustSettingsDomainUser kSecTrustSettingsResultTrustRoot
    sample_memory
  = Some (false, noErr).
Proof.
  apply (undecided_settings_never_match
           (settings_store
              (noErr, Some [constrained_record kSecTrustSettingsResultTrustRoot;
                            CFString "not a record"]))
           1%positive kSecTrustSettingsDomainUser kSecTrustSettingsResultTrustRoot
           sample_memory (constrained_record kSecTrustSettingsResultTrustRoot)
           [CFString "not a record"]).
  - reflexivity.
  - constructor; [apply constrained_record_not_applicable|].
    constructor; [|constructor].
    intros k (dict & Heq & _). discriminate Heq.
Defined.

Lemma CheckTrustMatch_record_outcome n :
  CheckTrustMatch_record (outcome_record n)
  = if (- 2 ^ 31 <=? n) && (n <? 2 ^ 31) then Some (as_uint32 n) else None.
Proof.
  unfold outcome_record. simpl. rewrite map_size_singleton, lookup_singleton_eq.
  simpl. destruct ((- 2 ^ 31 <=? n) && (n <? 2 ^ 31)); reflexivity.
Qed.

(** For a desired outcome below 2^31 (every outcome the platform defines)
    and a settings array holding one record with the reserved key alone,
    the evaluator reports a match exactly when the record's number is the
    desired outcome: a number outside the signed 32-bit range is not
    wrapped into a match, and a negative one never matches (lines
    55-66). *)
Theorem single_record_matches_iff_equal P cert domain desired m n :
  0 <= desired < 2 ^ 31 →
  SecTrustSettingsCopyTrustSettings P cert domain = (noErr, Some [outcome_record n]) →
  ∃ isMatch, Evaluate P cert domain desired m = Some (isMatch, noErr) ∧
             (isMatch = true ↔ n = desired).
Proof.
  intros Hdesired Hstore.
  exists (CheckTrustMatch_scan desired [outcome_record n]).
  split; [rewrite Evaluate_run, Hstore; reflexivity|].
  cbn [CheckTrustMatch_scan]. rewrite CheckTrustMatch_record_outcome.
  destruct ((- 2 ^ 31 <=? n) && (n <? 2 ^ 31)) eqn:Hrange.
  - apply andb_true_iff in Hrange as [Hlo%Z.leb_le Hhi%Z.ltb_lt].
    rewrite Z.eqb_eq. unfold as_uint32. split.
    + intros Hmod. destruct (Z_lt_le_dec n 0) as [Hneg | Hpos].
      * assert (n mod 2 ^ 32 = n + 2 ^ 32) as Hwrap.
        { symmetry. apply (Z.mod_unique_pos n (2 ^ 32) (-1)); lia. }
        lia.
      * rewrite Z.mod_small in Hmod by lia. exact Hmod.
    + intros ->. apply Z.mod_small. lia.
  - split; [discriminate|]. intros ->.
    apply andb_false_iff in Hrange as [Hlo%Z.leb_gt | Hhi%Z.ltb_ge]; lia.
Qed.

Lemma single_record_matches_iff_equal_witness :
  ∃ isMatch,
    Evaluate (settings_store (noErr, Some [outcome_record (2 ^ 32 + 1)])) 1%positive
      kSecTrustSettingsDomainUser kSecTrustSettingsResultTrustRoot sample_memory
    = Some (isMatch, noErr) ∧
    (isMatch = true ↔ 2 ^ 32 + 1 = kSecTrustSettingsResultTrustRoot).
Proof.
  apply (single_record_matches_iff_equal
           (settings_store (noErr, Some [outcome_record (2 ^ 32 + 1)])) 1%positive
           kSecTrustSettingsDomainUser kSecTrustSettingsResultTrustRoot sample_memory
           (2 ^ 32 + 1)).
  - unfold kSecTrustSettingsResultTrustRoot. lia.
  - reflexivity.
Defined.

Lemma CheckTrustMatch_scan_unique r1 r2 settings :
  CheckTrustMatch_scan r1 settings = true →
  CheckTrustMatch_scan r2 settings = true → r1 = r2.
Proof.
  induction settings as [|o rest IH]; simpl; [discriminate|].
  destruct (CheckTrustMatch_record o) as [v|]; [|exact IH].
  intros H1%Z.eqb_eq H2%Z.eqb_eq. congruence.
Qed.

Lemma isMatch_of_unique answer r1 r2 :
  isMatch_of answer r1 = true → isMatch_of answer r2 = true → r1 = r2.
Proof.
  destruct answer as [status [items|]]; simpl; [|discriminate].
  destruct (status =? noErr); [|discriminate].
  destruct items as [|item items].
  - intros H1%Z.eqb_eq H2%Z.eqb_eq. congruence.
  - apply CheckTrustMatch_scan_unique.
Qed.

(** A certificate's settings in a domain match at most one outcome: once
    the evaluator reports a match for one desired outcome, it reports no
    match, with the same status, for every other. *)
Theorem evaluator_matches_one_outcome P cert domain r1 r2 m1 m2 status :
  Evaluate P cert domain r1 m1 = Some (true, status) →
  r2 ≠ r1 →
  Evaluate P cert domain r2 m2 = Some (false, status).
Proof.
  rewrite !Evaluate_run. intros [= Hmatch Hst] Hne. rewrite Hst. f_equal. f_equal.
  destruct (isMatch_of (SecTrustSettingsCopyTrustSettings P cert domain) r2) eqn:H2;
    [|reflexivity].
  destruct Hne. eapply isMatch_of_unique; eassumption.
Qed.

Lemma evaluator_matches_one_outcome_witness :
  Evaluate (sample_store (noErr, None) (noErr, None)) 2%positive
    kSecTrustSettingsDomainAdmin kSecTrustSettingsResultTrustRoot sample_memory_collecting
  = Some (false, noErr).
Proof.
  apply (evaluator_matches_one_outcome (sample_store (noErr, None) (noErr, None))
           2%positive kSecTrustSettingsDomainAdmin kSecTrustSettingsResultDeny
           kSecTrustSettingsResultTrustRoot sample_memory sample_memory_collecting noErr).
  - reflexivity.
  - discriminate.
Defined.

(** * Further properties of the enumerator *)

Lemma domain_fails_not_success P domain status :
  domain_fails P domain status → status ≠ noErr.
Proof. destruct 1; assumption. Qed.

Lemma certificates_app pre post :
  certificates (pre ++ post) = certificates pre ++ certificates post.
Proof. apply omap_app. Qed.

Lemma domain_calls_pattern P domain : access_pattern P domain (domain_calls P domain).
Proof.
  right. unfold domain_calls, listed, settings_calls.
  destruct (SecTrustSettingsCopyCertificates P domain) as [status [objs|]]; simpl.
  - destruct (status =? noErr).
    + exists (certificates objs). split; reflexivity.
    + exists []. split; [reflexivity | apply prefix_nil].
  - exists []. split; reflexivity.
Qed.

(** A failed enumeration, with the store accesses it made. *)
Lemma EnumerateTrust_fails_calls P domain result m out items status :
  domain_fails P domain status →
  certsOut m = Some out → arrays m !! out = Some items →
  ∃ m' queried,
    EnumerateTrust P domain result caller_cell caller_cell m = Done 0 m' ∧
    certsOut m' = None ∧ osStatusOut m' = status ∧
    arrays m' = delete out (arrays m) ∧
    storeCalls m' = storeCalls m ++ CopyCertificates domain
                    :: ((λ cert, CopyTrustSettings cert domain) <$> queried) ∧
    queried `prefix_of` certificates (listed P domain).
Proof.
  intros Hfail Hout Hlive.
  destruct Hfail as [status left Hstore Hne1 Hne2 | pre cert post status Hstore Hpre Hst Hne].
  - eexists. exists []. split.
    { eapply EnumerateTrust_listing_fails; eassumption. }
    simpl. repeat split. apply prefix_nil.
  - subst status. eexists. exists (certificates pre ++ [cert]). split.
    { eapply EnumerateTrust_reading_fails; eassumption. }
    simpl. repeat split.
    + apply delete_insert_eq.
    + unfold settings_calls. rewrite fmap_app. reflexivity.
    + unfold listed. rewrite Hstore. simpl. rewrite certificates_app. simpl.
      exists (certificates post). rewrite <- app_assoc. reflexivity.
Qed.

(** With a store that keeps the listing contract, what an enumeration
    handed a usable collection cell does. *)
Lemma EnumerateTrust_outcome P domain result m :
  listing_contract P → usable m →
  ∃ ret m' calls,
    EnumerateTrust P domain result caller_cell caller_cell m = Done ret m' ∧
    return_agrees_with_status ret m' ∧
    array_kept_or_released m m' ∧
    storeCalls m' = storeCalls m ++ calls ∧ access_pattern P domain calls.
Proof.
  intros Hcontract Husable.
  assert (Hlive : ∀ m0 out items,
            certsOut m0 = Some out → arrays m0 !! out = Some items →
            ∃ ret m' calls,
              EnumerateTrust P domain result caller_cell caller_cell m0 = Done ret m' ∧
              return_agrees_with_status ret m' ∧
              ((certsOut m' = None ∧ arrays m' = delete out (arrays m0)) ∨
               (certsOut m' = Some out ∧
                ∃ item items', arrays m' = <[out := item :: items']> (arrays m0))) ∧
              storeCalls m' = storeCalls m0 ++ calls ∧ access_pattern P domain calls).
  { intros m0 out items Hout Hitems.
    destruct (domain_succeeds_or_fails P domain Hcontract) as [Hok | [status Hfail]].
    - exists 1, (enumerated P domain result out items m0), (domain_calls P domain).
      split; [apply EnumerateTrust_succeeds; assumption|].
      split; [left; split; [reflexivity | apply enumerated_status]|].
      split; [|split; [apply enumerated_calls | apply domain_calls_pattern]].
      destruct (items ++ domain_matches P domain result) as [|x l] eqn:Hall.
      + left. apply enumerated_empty. exact Hall.
      + right.
        destruct (enumerated_nonempty P domain result out items m0 Hout) as [Hc Ha].
        { rewrite Hall. discriminate. }
        split; [exact Hc|]. exists x, l. rewrite Ha, Hall. reflexivity.
    - destruct (EnumerateTrust_fails_calls P domain result m0 out items status
                  Hfail Hout Hitems)
        as (m' & queried & Hrun & Hcell & Hst & Harr & Hcalls & Hprefix).
      exists 0, m', (CopyCertificates domain
                     :: ((λ cert, CopyTrustSettings cert domain) <$> queried)).
      split; [exact Hrun|].
      split.
      { right. split; [reflexivity|]. split; [|exact Hcell].
        rewrite Hst. eapply domain_fails_not_success. exact Hfail. }
      split; [left; split; assumption|].
      split; [exact Hcalls|]. right. exists queried. split; [reflexivity | exact Hprefix]. }
  unfold usable in Husable. unfold array_kept_or_released.
  destruct (certsOut m) as [out|] eqn:Hout; simpl.
  - destruct Husable as [items Hitems]. eapply Hlive; eassumption.
  - destruct (CFArrayCreateMutable_succeeds P (allocations m)) eqn:Halloc.
    + rewrite (EnumerateTrust_created P domain result m Hout Halloc).
      destruct (Hlive (created m) (fresh_array m) [] eq_refl)
        as (ret & m' & calls & Hrun & Hret & Harr & Hcalls & Hpattern).
      { simpl. apply lookup_insert_eq. }
      exists ret, m', calls. split; [exact Hrun|]. split; [exact Hret|].
      split; [|split; assumption].
      simpl in Harr. destruct Harr as [[Hc Ha] | (Hc & item & items' & Ha)].
      * left. split; [exact Hc|]. rewrite Ha. apply delete_insert_eq.
      * right. split; [exact Hc|]. exists item, items'. rewrite Ha.
        apply insert_insert_eq.
    + rewrite (EnumerateTrust_allocation_fails P domain result m Hout Halloc).
      exists 0. eexists. exists []. split; [reflexivity|].
      split.
      { right. split; [reflexivity|]. split; [discriminate | exact Hout]. }
      split; [|split; [symmetry; apply app_nil_r | left; reflexivity]].
      left. split; [exact Hout|]. simpl. symmetry. apply delete_id, fresh_array_unused.
Qed.

(** When the listing itself fails with a code other than "no trust
    settings", the enumeration returns failure with that code in the
    status cell and a null collection cell, and it has made the listing
    call and no other: no certificate's settings are queried, even if the
    store left an array behind (lines 108-110, 138-158). *)
Theorem listing_error_aborts_before_any_query P domain result m status left :
  SecTrustSettingsCopyCertificates P domain = (status, left) →
  status ≠ noErr → status ≠ errSecNoTrustSettings →
  accumulator_ready P m →
  ∃ m', EnumerateTrust P domain result caller_cell caller_cell m = Done 0 m' ∧
        osStatusOut m' = status ∧ certsOut m' = None ∧ collection m' = [] ∧
        storeCalls m' = storeCalls m ++ [CopyCertificates domain].
Proof.
  intros Hstore Hne1 Hne2 Hready. unfold accumulator_ready in Hready.
  destruct (certsOut m) as [out|] eqn:Hout.
  - destruct Hready as [items Hlive]. eexists. split.
    { eapply EnumerateTrust_listing_fails; eassumption. }
    repeat split.
  - rewrite (EnumerateTrust_created P domain result m Hout Hready).
    eexists. split.
    { eapply EnumerateTrust_listing_fails; try eassumption; [reflexivity|].
      simpl. apply lookup_insert_eq. }
    repeat split.
Qed.

Lemma listing_error_aborts_before_any_query_witness :
  ∃ m', EnumerateTrust
          (sample_store (errSecInteractionNotAllowed, Some [SecCertificate 1%positive])
             (noErr, None))
          kSecTrustSettingsDomainUser kSecTrustSettingsResultTrustRoot
          caller_cell caller_cell sample_memory_collecting = Done 0 m' ∧
        osStatusOut m' = errSecInteractionNotAllowed ∧ certsOut m' = None ∧
        collection m' = [] ∧
        storeCalls m' = [CopyCertificates kSecTrustSettingsDomainAdmin;
                         CopyCertificates kSecTrustSettingsDomainUser].
Proof.
  apply (listing_error_aborts_before_any_query
           (sample_store (errSecInteractionNotAllowed, Some [SecCertificate 1%positive])
              (noErr, None))
           kSecTrustSettingsDomainUser kSecTrustSettingsResultTrustRoot
           sample_memory_collecting errSecInteractionNotAllowed
           (Some [SecCertificate 1%positive])).
  - reflexivity.
  - discriminate.
  - discriminate.
  - exists [SecCertificate 1%positive]. reflexivity.
Defined.

(** With a store that keeps the listing contract, an enumeration accesses
    the store only about its own domain, and in one shape: no access at
    all (no array could be created), or the listing call first and then
    one settings query for each certificate of an initial part of the
    listing, in listing order; objects that are no certificates are never
    queried (lines 108-130). *)
Theorem enumeration_access_pattern P domain result m :
  listing_contract P → usable m →
  ∃ ret m' calls,
    EnumerateTrust P domain result caller_cell caller_cell m = Done ret m' ∧
    storeCalls m' = storeCalls m ++ calls ∧
    access_pattern P domain calls ∧
    Forall (λ c, call_domain c = domain) calls.
Proof.
  intros Hcontract Husable.
  destruct (EnumerateTrust_outcome P domain result m Hcontract Husable)
    as (ret & m' & calls & Hrun & _ & _ & Hcalls & Hpattern).
  exists ret, m', calls. split; [exact Hrun|]. split; [exact Hcalls|].
  split; [exact Hpattern|].
  destruct Hpattern as [-> | (queried & -> & _)]; [constructor|].
  constructor; [reflexivity|]. apply Forall_fmap, Forall_true. reflexivity.
Qed.

Lemma enumeration_access_pattern_witness :
  ∃ ret m' calls,
    EnumerateTrust
      (sample_store (noErr, Some [CFString "junk"; SecCertificate 6%positive;
                                  SecCertificate 5%positive; SecCertificate 1%positive])
         (noErr, Some []))
      kSecTrustSettingsDomainUser kSecTrustSettingsResultDeny
      caller_cell caller_cell sample_memory_collecting = Done ret m' ∧
    storeCalls m' = storeCalls sample_memory_collecting ++ calls ∧
    access_pattern
      (sample_store (noErr, Some [CFString "junk"; SecCertificate 6%positive;
                                  SecCertificate 5%positive; SecCertificate 1%positive])
         (noErr, Some []))
      kSecTrustSettingsDomainUser calls ∧
    Forall (λ c, call_domain c = kSecTrustSettingsDomainUser) calls.
Proof.
  apply (enumeration_access_pattern
           (sample_store (noErr, Some [CFString "junk"; SecCertificate 6%positive;
                                       SecCertificate 5%positive; SecCertificate 1%positive])
              (noErr, Some []))
           kSecTrustSettingsDomainUser kSecTrustSettingsResultDeny
           sample_memory_collecting).
  - intros domain. destruct domain; simpl; intros _; eauto.
  - exists [SecCertificate 1%positive]. reflexivity.
Defined.

Lemma matching_elem P domain result objs obj :
  obj ∈ matching P domain result objs ↔
  obj ∈ objs ∧ matches_desired P domain result obj = true.
Proof.
  unfold matching. rewrite !list_elem_of_In. apply List.filter_In.
Qed.

Lemma matching_sublist P domain result objs :
  matching P domain result objs `sublist_of` objs.
Proof.
  unfold matching. induction objs as [|obj objs IH]; simpl; [constructor|].
  destruct (matches_desired P domain result obj); constructor; exact IH.
Qed.

(** A successful enumeration appends to the match set exactly the listed
    certificates the evaluator matches, in listing order: what the set
    held stays in front, an object is in the new set exactly when it was
    in the old one or is a listed certificate for which the evaluator
    answers (true, success), and objects that are no certificates are
    never appended (lines 112-136). *)
Theorem enumeration_collects_exactly_the_matches P domain result m objs :
  SecTrustSettingsCopyCertificates P domain = (noErr, Some objs) →
  Forall (readable P domain) objs →
  accumulator_ready P m →
  ∃ m', EnumerateTrust P domain result caller_cell caller_cell m = Done 1 m' ∧
        collection m' = collection m ++ matching P domain result objs ∧
        matching P domain result objs `sublist_of` objs ∧
        ∀ obj, obj ∈ collection m' ↔
               obj ∈ collection m ∨
               ∃ cert, obj = SecCertificate cert ∧ obj ∈ objs ∧
                       ∀ m0, Evaluate P cert domain result m0 = Some (true, noErr).
Proof.
  intros Hstore Hall Hready.
  assert (Hok : domain_succeeds P domain) by (right; eauto).
  destruct (EnumerateTrust_appends P domain result m Hok Hready)
    as (m' & Hrun & _ & Hcoll & _).
  assert (Hmatches : domain_matches P domain result = matching P domain result objs).
  { unfold domain_matches. rewrite Hstore. reflexivity. }
  rewrite Hmatches in Hcoll.
  exists m'. split; [exact Hrun|]. split; [exact Hcoll|].
  split; [apply matching_sublist|].
  intros obj. rewrite Hcoll, elem_of_app, matching_elem.
  split.
  - intros [Hold | [Hin Hmatch]]; [left; exact Hold | right].
    destruct obj as [| | | | | |cert]; try discriminate Hmatch.
    exists cert. split; [reflexivity|]. split; [exact Hin|].
    intros m0. rewrite matches_desired_Evaluate, Hmatch. f_equal. f_equal.
    rewrite Forall_forall in Hall. apply (Hall _ Hin).
  - intros [Hold | (cert & -> & Hin & Heval)]; [left; exact Hold | right].
    split; [exact Hin|]. specialize (Heval m).
    rewrite matches_desired_Evaluate in Heval. congruence.
Qed.

Lemma enumeration_collects_exactly_the_matches_witness :
  ∃ m', EnumerateTrust
          (sample_store (noErr, Some [CFString "junk"; SecCertificate 3%positive;
                                      SecCertificate 1%positive; SecCertificate 2%positive])
             (noErr, Some []))
          kSecTrustSettingsDomainUser kSecTrustSettingsResultDeny
          caller_cell caller_cell sample_memory_collecting = Done 1 m' ∧
        collection m' = [SecCertificate 1%positive; SecCertificate 3%positive;
                         SecCertificate 2%positive].
Proof.
  destruct (enumeration_collects_exactly_the_matches
              (sample_store (noErr, Some [CFString "junk"; SecCertificate 3%positive;
                                          SecCertificate 1%positive; SecCertificate 2%positive])
                 (noErr, Some []))
              kSecTrustSettingsDomainUser kSecTrustSettingsResultDeny
              sample_memory_collecting
              [CFString "junk"; SecCertificate 3%positive;
               SecCertificate 1%positive; SecCertificate 2%positive])
    as (m' & Hrun & Hcoll & _).
  - reflexivity.
  - repeat constructor.
  - exists [SecCertificate 1%positive]. reflexivity.
  - exists m'. split; [exact Hrun | exact Hcoll].
Defined.


(** * Further properties of the exported operations *)

(** What the caller left in the two output cells before the call is
    disregarded: an exported operation handed both pointers does the same
    whatever the cells held (lines 83-84, 165-166 and the like). *)
Theorem caller_values_are_disregarded P op m old_certs old_status :
  run P op caller_cell caller_cell (set_certsOut old_certs (set_osStatusOut old_status m))
  = run P op caller_cell caller_cell m.
Proof.
  assert (Hreset : ∀ domain result m0,
            EnumerateTrust P domain result caller_cell caller_cell
              (set_certsOut None (set_certsOut old_certs (set_osStatusOut old_status m0)))
            = EnumerateTrust P domain result caller_cell caller_cell (set_certsOut None m0)).
  { intros domain result m0. reflexivity. }
  destruct (machine_scope op) eqn:Hop.
  - rewrite !(run_machine_scope P op _ Hop), Hreset. reflexivity.
  - rewrite !(run_user_scope P op _ Hop), Hreset. reflexivity.
Qed.

(** When the first array cannot be created, every exported operation
    handed both pointers returns failure (0) with the allocation error in
    the status cell and a null collection cell, without any store access;
    a machine-scope operation does not go on to the System domain (lines
    97-105, 184-187). *)
Theorem allocation_failure_is_reported P op m :
  CFArrayCreateMutable_succeeds P (allocations m) = false →
  ∃ m', run P op caller_cell caller_cell m = Done 0 m' ∧
        osStatusOut m' = errSecAllocate ∧ certsOut m' = None ∧
        storeCalls m' = storeCalls m ∧ arrays m' = arrays m.
Proof.
  intros Halloc.
  assert (Hfirst : ∀ domain,
            EnumerateTrust P domain (desired_outcome op) caller_cell caller_cell
              (set_certsOut None m)
            = Done 0 (set_osStatusOut errSecAllocate (count_allocation (set_certsOut None m)))).
  { intros domain. apply EnumerateTrust_allocation_fails; [reflexivity | exact Halloc]. }
  eexists. split.
  - destruct (machine_scope op) eqn:Hop.
    + rewrite (run_machine_scope P op m Hop), Hfirst. reflexivity.
    + rewrite (run_user_scope P op m Hop), Hfirst. reflexivity.
  - repeat split.
Qed.

Lemma allocation_failure_is_reported_witness :
  ∃ m', run exhausted_store EnumerateMachineDisallowed caller_cell caller_cell
          sample_memory = Done 0 m' ∧
        osStatusOut m' = errSecAllocate ∧ certsOut m' = None ∧
        storeCalls m' = [] ∧ arrays m' = ∅.
Proof.
  apply (allocation_failure_is_reported exhausted_store EnumerateMachineDisallowed
           sample_memory).
  reflexivity.
Defined.

(** A user-scope operation whose enumeration succeeds returns 1 with the
    success code, and the match set is the matching certificates of the
    User domain's listing, in listing order; when there is one, it is in
    a new array that the collection cell points to, and the arrays the
    caller had are as before (lines 163-172, 192-201). *)
Theorem user_scope_returns_the_domain_matches P op m :
  machine_scope op = false →
  CFArrayCreateMutable_succeeds P (allocations m) = true →
  domain_succeeds P kSecTrustSettingsDomainUser →
  ∃ m', run P op caller_cell caller_cell m = Done 1 m' ∧
        osStatusOut m' = noErr ∧
        collection m' = domain_matches P kSecTrustSettingsDomainUser (desired_outcome op) ∧
        storeCalls m' = storeCalls m ++ domain_calls P kSecTrustSettingsDomainUser ∧
        match domain_matches P kSecTrustSettingsDomainUser (desired_outcome op) with
        | [] => certsOut m' = None ∧ arrays m' = arrays m
        | found => certsOut m' = Some (fresh_array m) ∧
                   arrays m' = <[fresh_array m := found]> (arrays m)
        end.
Proof.
  intros Hop Halloc Hok.
  rewrite (run_user_scope P op m Hop).
  rewrite (EnumerateTrust_ready_succeeds P _ _ (set_certsOut None m) Hok Halloc).
  cbn [certsOut set_certsOut].
  eexists. split; [reflexivity|].
  split; [apply enumerated_status|].
  split; [apply enumerated_collection; reflexivity|].
  split; [rewrite enumerated_calls; reflexivity|].
  destruct (domain_matches P kSecTrustSettingsDomainUser (desired_outcome op))
    as [|x l] eqn:Hfound.
  - destruct (enumerated_empty P kSecTrustSettingsDomainUser (desired_outcome op)
                (fresh_array (set_certsOut None m)) [] (created (set_certsOut None m)))
      as [Hc Ha].
    { rewrite Hfound. reflexivity. }
    split; [exact Hc|]. rewrite Ha. simpl.
    apply delete_insert_id. exact (fresh_array_unused m).
  - destruct (enumerated_nonempty P kSecTrustSettingsDomainUser (desired_outcome op)
                (fresh_array (set_certsOut None m)) [] (created (set_certsOut None m))
                eq_refl)
      as [Hc Ha].
    { rewrite Hfound. discriminate. }
    split; [exact Hc|]. rewrite Ha, Hfound. simpl. apply insert_insert_eq.
Qed.

Lemma user_scope_returns_the_domain_matches_witness :
  ∃ m', run (sample_store (noErr, Some [SecCertificate 2%positive; SecCertificate 1%positive;
                                        SecCertificate 3%positive])
               (noErr, None))
          EnumerateUserDisallowed caller_cell caller_cell sample_memory = Done 1 m' ∧
        osStatusOut m' = noErr ∧
        collection m' = [SecCertificate 2%positive; SecCertificate 3%positive].
Proof.
  destruct (user_scope_returns_the_domain_matches
              (sample_store (noErr, Some [SecCertificate 2%positive; SecCertificate 1%positive;
                                          SecCertificate 3%positive])
                 (noErr, None))
              EnumerateUserDisallowed sample_memory)
    as (m' & Hrun & Hst & Hcoll & _).
  - reflexivity.
  - reflexivity.
  - right. eexists. split; [reflexivity|]. repeat constructor.
  - exists m'. split; [exact Hrun|]. split; [exact Hst | exact Hcoll].
Defined.

(** When the Admin enumeration of a machine-scope operation fails, the
    operation returns failure with the store's code and a null collection
    cell, and the System domain is never accessed: every store access of
    the call is about Admin (lines 181-189, 210-217). *)
Theorem admin_failure_skips_system P op m status :
  machine_scope op = true →
  CFArrayCreateMutable_succeeds P (allocations m) = true →
  domain_fails P kSecTrustSettingsDomainAdmin status →
  ∃ m' calls, run P op caller_cell caller_cell m = Done 0 m' ∧
              osStatusOut m' = status ∧ certsOut m' = None ∧
              arrays m' = arrays m ∧
              storeCalls m' = storeCalls m ++ calls ∧
              Forall (λ c, call_domain c = kSecTrustSettingsDomainAdmin) calls.
Proof.
  intros Hop Halloc Hfail.
  rewrite (run_machine_scope P op m Hop).
  rewrite (EnumerateTrust_created P _ _ (set_certsOut None m) eq_refl Halloc).
  destruct (EnumerateTrust_fails_calls P kSecTrustSettingsDomainAdmin (desired_outcome op)
              (created (set_certsOut None m)) (fresh_array m) [] status Hfail eq_refl)
    as (m' & queried & Hrun & Hcell & Hst & Harr & Hcalls & _).
  { simpl. apply lookup_insert_eq. }
  rewrite Hrun. change (0 =? 1) with false. cbn iota.
  exists m'. eexists. split; [reflexivity|].
  split; [exact Hst|]. split; [exact Hcell|].
  split; [|split; [exact Hcalls|]].
  - rewrite Harr. simpl. apply delete_insert_id. exact (fresh_array_unused m).
  - constructor; [reflexivity|]. apply Forall_fmap, Forall_true. reflexivity.
Qed.

Lemma admin_failure_skips_system_witness :
  ∃ m' calls,
    run (uniform_store (noErr, Some [SecCertificate 1%positive; SecCertificate 5%positive;
                                     SecCertificate 2%positive]))
      EnumerateMachineRoots caller_cell caller_cell sample_memory = Done 0 m' ∧
    osStatusOut m' = errSecNotAvailable ∧ certsOut m' = None ∧
    arrays m' = arrays sample_memory ∧
    storeCalls m' = storeCalls sample_memory ++ calls ∧
    Forall (λ c, call_domain c = kSecTrustSettingsDomainAdmin) calls.
Proof.
  apply (admin_failure_skips_system
           (uniform_store (noErr, Some [SecCertificate 1%positive; SecCertificate 5%positive;
                                        SecCertificate 2%positive]))
           EnumerateMachineRoots sample_memory errSecNotAvailable).
  - reflexivity.
  - reflexivity.
  - apply (fails_reading _ _ [SecCertificate 1%positive] 5%positive
             [SecCertificate 2%positive]).
    + reflexivity.
    + repeat constructor.
    + reflexivity.
    + discriminate.
Defined.

(** With a store that keeps the listing contract, what an exported
    operation handed both pointers leaves behind. *)
Lemma run_outcome P op m :
  listing_contract P →
  ∃ ret m', run P op caller_cell caller_cell m = Done ret m' ∧
            return_agrees_with_status ret m' ∧
            ((certsOut m' = None ∧ arrays m' = arrays m) ∨
             (certsOut m' = Some (fresh_array m) ∧
              ∃ item items, arrays m' = <[fresh_array m := item :: items]> (arrays m))).
Proof.
  intros Hcontract.
  assert (Hfirst : ∀ domain,
            ∃ ret m', EnumerateTrust P domain (desired_outcome op) caller_cell caller_cell
                        (set_certsOut None m) = Done ret m' ∧
                      return_agrees_with_status ret m' ∧
                      ((certsOut m' = None ∧ arrays m' = arrays m) ∨
                       (certsOut m' = Some (fresh_array m) ∧
                        ∃ item items,
                          arrays m' = <[fresh_array m := item :: items]> (arrays m)))).
  { intros domain.
    destruct (EnumerateTrust_outcome P domain (desired_outcome op) (set_certsOut None m)
                Hcontract I)
      as (ret & m' & _ & Hrun & Hret & Harr & _).
    exists ret, m'. split; [exact Hrun|]. split; [exact Hret|].
    destruct Harr as [[Hc Ha] | [Hc Ha]]; [left | right; split; assumption].
    split; [exact Hc|]. rewrite Ha. apply delete_id. exact (fresh_array_unused m). }
  destruct (machine_scope op) eqn:Hop.
  - rewrite (run_machine_scope P op m Hop).
    destruct (Hfirst kSecTrustSettingsDomainAdmin) as (ret1 & m1 & -> & Hret1 & Harr1).
    destruct Hret1 as [[-> Hst1] | (-> & Hst1 & Hc1)].
    + change (1 =? 1) with true. cbn iota.
      assert (Husable : usable m1).
      { unfold usable. destruct Harr1 as [[-> _] | (-> & item & items & ->)]; [exact I|].
        rewrite lookup_insert_eq. eauto. }
      destruct (EnumerateTrust_outcome P kSecTrustSettingsDomainSystem (desired_outcome op)
                  m1 Hcontract Husable)
        as (ret2 & m2 & _ & -> & Hret2 & Harr2 & _).
      exists ret2, m2. split; [reflexivity|]. split; [exact Hret2|].
      unfold array_kept_or_released in Harr2.
      destruct Harr1 as [[Hc1 Ha1] | (Hc1 & item1 & items1 & Ha1)];
        rewrite Hc1 in Harr2; simpl in Harr2.
      * assert (Hsame : fresh_array m1 = fresh_array m)
          by (unfold fresh_array; rewrite Ha1; reflexivity).
        rewrite Hsame, Ha1 in Harr2.
        destruct Harr2 as [[Hc2 Ha2] | [Hc2 Ha2]]; [left | right; split; assumption].
        split; [exact Hc2|]. rewrite Ha2. apply delete_id, fresh_array_unused.
      * rewrite Ha1 in Harr2.
        destruct Harr2 as [[Hc2 Ha2] | (Hc2 & item2 & items2 & Ha2)]; [left | right].
        -- split; [exact Hc2|]. rewrite Ha2.
           apply delete_insert_id, fresh_array_unused.
        -- split; [exact Hc2|]. exists item2, items2. rewrite Ha2.
           apply insert_insert_eq.
    + change (0 =? 1) with false. cbn iota.
      exists 0, m1. split; [reflexivity|].
      split; [right; auto|].
      destruct Harr1 as [Hleft | [Hc _]]; [left; exact Hleft | congruence].
  - rewrite (run_user_scope P op m Hop). apply Hfirst.
Qed.



(** With a store that keeps the listing contract, the return value of an
    exported operation handed both pointers is 1 or 0 and agrees with the
    status cell: 1 comes with the success code, 0 with another code and a
    null collection cell (lines 150, 160). *)
Theorem return_value_agrees_with_status P op m :
  listing_contract P →
  ∃ ret m', run P op caller_cell caller_cell m = Done ret m' ∧
            ((ret = 1 ∧ osStatusOut m' = noErr) ∨
             (ret = 0 ∧ osStatusOut m' ≠ noErr ∧ certsOut m' = None)).
Proof.
  intros Hcontract.
  destruct (run_outcome P op m Hcontract) as (ret & m' & Hrun & Hret & _).
  exists ret, m'. split; [exact Hrun | exact Hret].
Qed.

Lemma return_value_agrees_with_status_witness :
  ∃ ret m', run (sample_store (errSecNoTrustSettings, None)
                   (errSecInteractionNotAllowed, None))
              EnumerateMachineDisallowed caller_cell caller_cell sample_memory
            = Done ret m' ∧
            ((ret = 1 ∧ osStatusOut m' = noErr) ∨
             (ret = 0 ∧ osStatusOut m' ≠ noErr ∧ certsOut m' = None)).
Proof.
  apply (return_value_agrees_with_status
           (sample_store (errSecNoTrustSettings, None) (errSecInteractionNotAllowed, None))
           EnumerateMachineDisallowed sample_memory).
  intros domain. destruct domain; simpl; intros Hst;
    [discriminate Hst | eauto | discriminate Hst].
Defined.

Lemma domain_matches_one_outcome P domain r1 r2 obj :
  obj ∈ domain_matches P domain r1 → obj ∈ domain_matches P domain r2 → r1 = r2.
Proof.
  unfold domain_matches.
  destruct (SecTrustSettingsCopyCertificates P domain) as [status [objs|]];
    [|intros []%elem_of_nil].
  destruct (status =? noErr); [|intros []%elem_of_nil].
  rewrite !matching_elem. intros [_ H1] [_ H2].
  destruct obj; try discriminate H1. eapply isMatch_of_unique; eassumption.
Qed.

(** What a user-scope operation returns is among the matches of the User
    domain. *)
Lemma user_scope_collection P op m :
  listing_contract P → machine_scope op = false →
  ∃ ret m', run P op caller_cell caller_cell m = Done ret m' ∧
            ∀ obj, obj ∈ collection m' →
                   obj ∈ domain_matches P kSecTrustSettingsDomainUser (desired_outcome op).
Proof.
  intros Hcontract Hop. rewrite (run_user_scope P op m Hop).
  destruct (CFArrayCreateMutable_succeeds P (allocations m)) eqn:Halloc.
  - destruct (domain_succeeds_or_fails P kSecTrustSettingsDomainUser Hcontract)
      as [Hok | [status Hfail]].
    + destruct (EnumerateTrust_appends P kSecTrustSettingsDomainUser (desired_outcome op)
                  (set_certsOut None m) Hok Halloc)
        as (m' & Hrun & _ & Hcoll & _).
      exists 1, m'. split; [exact Hrun|]. rewrite Hcoll. intros obj Hin. exact Hin.
    + rewrite (EnumerateTrust_created P _ _ (set_certsOut None m) eq_refl Halloc).
      destruct (EnumerateTrust_fails P kSecTrustSettingsDomainUser (desired_outcome op)
                  (created (set_certsOut None m)) (fresh_array m) [] status Hfail eq_refl)
        as (m' & Hrun & Hcell & _).
      { simpl. apply lookup_insert_eq. }
      exists 0, m'. split; [exact Hrun|]. unfold collection. rewrite Hcell.
      intros obj []%elem_of_nil.
  - rewrite (EnumerateTrust_allocation_fails P _ _ (set_certsOut None m) eq_refl Halloc).
    eexists. eexists. split; [reflexivity|]. intros obj []%elem_of_nil.
Qed.

(** What a machine-scope operation returns when both enumerations
    succeed. *)
Lemma machine_scope_collection P op m :
  machine_scope op = true →
  (∀ k, CFArrayCreateMutable_succeeds P k = true) →
  domain_succeeds P kSecTrustSettingsDomainAdmin →
  domain_succeeds P kSecTrustSettingsDomainSystem →
  ∃ m', run P op caller_cell caller_cell m = Done 1 m' ∧
        collection m'
        = domain_matches P kSecTrustSettingsDomainAdmin (desired_outcome op)
          ++ domain_matches P kSecTrustSettingsDomainSystem (desired_outcome op).
Proof.
  intros Hop Halloc Hadmin Hsystem.
  rewrite (run_machine_scope P op m Hop).
  destruct (EnumerateTrust_appends P kSecTrustSettingsDomainAdmin (desired_outcome op)
              (set_certsOut None m) Hadmin (Halloc _))
    as (m1 & -> & _ & Hcoll1 & _ & Hpres1 & _).
  change (1 =? 1) with true. cbn iota.
  assert (Hready1 : accumulator_ready P m1).
  { unfold accumulator_ready. unfold presented in Hpres1.
    destruct (certsOut m1); [|apply Halloc].
    destruct Hpres1 as (item & items & ->). eauto. }
  destruct (EnumerateTrust_appends P kSecTrustSettingsDomainSystem (desired_outcome op)
              m1 Hsystem Hready1)
    as (m2 & Hrun2 & _ & Hcoll2 & _).
  exists m2. split; [exact Hrun2|]. rewrite Hcoll2, Hcoll1. reflexivity.
Qed.

(** With a store that keeps the listing contract, the user-scope roots and
    the user-scope disallowed certificates are disjoint: no certificate is
    returned by both operations.  The machine scope gives no such
    guarantee, a certificate trusted in Admin and denied in System being
    returned by both machine-scope operations. *)
Theorem user_roots_and_disallowed_are_disjoint P m1 m2 :
  listing_contract P →
  (∃ ret1 roots ret2 disallowed,
     run P EnumerateUserRoots caller_cell caller_cell m1 = Done ret1 roots ∧
     run P EnumerateUserDisallowed caller_cell caller_cell m2 = Done ret2 disallowed ∧
     ∀ obj, obj ∈ collection roots → obj ∉ collection disallowed) ∧
  (∃ roots disallowed,
     run split_store EnumerateMachineRoots caller_cell caller_cell m1 = Done 1 roots ∧
     run split_store EnumerateMachineDisallowed caller_cell caller_cell m2
       = Done 1 disallowed ∧
     SecCertificate 1%positive ∈ collection roots ∧
     SecCertificate 1%positive ∈ collection disallowed).
Proof.
  intros Hcontract. split.
  - destruct (user_scope_collection P EnumerateUserRoots m1 Hcontract eq_refl)
      as (ret1 & roots & Hrun1 & Hsub1).
    destruct (user_scope_collection P EnumerateUserDisallowed m2 Hcontract eq_refl)
      as (ret2 & disallowed & Hrun2 & Hsub2).
    exists ret1, roots, ret2, disallowed. split; [exact Hrun1|]. split; [exact Hrun2|].
    intros obj Hin1 Hin2.
    pose proof (domain_matches_one_outcome P _ _ _ obj (Hsub1 obj Hin1) (Hsub2 obj Hin2))
      as Heq.
    discriminate Heq.
  - assert (Hok : ∀ domain, domain_succeeds split_store domain).
    { intros domain. right. exists [SecCertificate 1%positive].
      split; [reflexivity|]. constructor; [|constructor]. destruct domain; reflexivity. }
    destruct (machine_scope_collection split_store EnumerateMachineRoots m1)
      as (roots & Hrun1 & Hcoll1); [reflexivity | reflexivity | apply Hok | apply Hok |].
    destruct (machine_scope_collection split_store
                EnumerateMachineDisallowed m2)
      as (disallowed & Hrun2 & Hcoll2); [reflexivity | reflexivity | apply Hok | apply Hok |].
    exists roots, disallowed. split; [exact Hrun1|]. split; [exact Hrun2|].
    rewrite Hcoll1, Hcoll2. split; apply list_elem_of_here.
Qed.

Lemma user_roots_and_disallowed_are_disjoint_witness :
  ∃ ret1 roots ret2 disallowed,
    run (sample_store (noErr, Some [SecCertificate 1%positive; SecCertificate 2%positive])
           (noErr, Some []))
      EnumerateUserRoots caller_cell caller_cell sample_memory = Done ret1 roots ∧
    run (sample_store (noErr, Some [SecCertificate 1%positive; SecCertificate 2%positive])
           (noErr, Some []))
      EnumerateUserDisallowed caller_cell caller_cell sample_memory
      = Done ret2 disallowed ∧
    ∀ obj, obj ∈ collection roots → obj ∉ collection disallowed.
Proof.
  refine (proj1 (user_roots_and_disallowed_are_disjoint
           (sample_store (noErr, Some [SecCertificate 1%positive; SecCertificate 2%positive])
              (noErr, Some []))
           sample_memory sample_memory _)).
  intros domain. destruct domain; simpl; intros _; eauto.
Defined.
